(** * Flappy Bird (pygame): a shallow embedding of flappybird.py

    The development follows [flappybird.py] (and [game.py], whose [Game]
    class is the same, and [converter.py]).  Python [int]s are [Z].
    Python [float]s are read as exact rationals [Q]: the positions and
    timers below are compared with, added to and subtracted from
    constants, and rounding is not modelled.

    Three values come from outside the repository and are taken as
    parameters: [math.cos], [math.pi] and pygame's mask collision test
    ([pygame.sprite.collide_mask], which reads the sprite images and the
    wall clock).  The value handed back by [random.randint] is an
    argument of the constructor [PipePair.init].  Drawing ([blit],
    [flip]) has no effect on the simulation state and is left out. *)

From Stdlib Require Import ZArith QArith Qround List Bool Lia Lqa Sorted.
Import ListNotations.

Local Open Scope Q_scope.

(** ** Numbers *)

(** [a < b] on floats, as a boolean. *)
Definition Qltb (a b : Q) : bool := negb (Qle_bool b a).

(** Python's [int(f)]: truncation toward zero. *)
Definition int (f : Q) : Z :=
  if Qle_bool 0 f then Qfloor f else Qceiling f.

(** Python's [a % b] on floats: the result has the sign of [b]. *)
Definition pymod (a b : Q) : Q := a - b * inject_Z (Qfloor (a / b)).

(** Truth value of a number: non-zero. *)
Definition truthy (a : Q) : bool := negb (Qeq_bool a 0).

(** ** Module constants *)

Definition FPS : Z := 60.
Definition TILE : Z := 284.
Definition ANIMATION_SPEED : Q := 0.18.
Definition WIN_WIDTH : Z := (TILE * 2)%Z.
Definition WIN_HEIGHT : Z := 512%Z.

(** [frames_to_msec(frames, fps=FPS)] *)
Definition frames_to_msec (frames : Z) (fps : Z) : Q :=
  1000 * inject_Z frames / inject_Z fps.

(** [msec_to_frames(milliseconds, fps=FPS)] *)
Definition msec_to_frames (milliseconds : Z) (fps : Z) : Q :=
  inject_Z fps * inject_Z milliseconds / 1000.

(** ** Bird *)

Module Bird.

Definition WIDTH : Z := 32%Z.
Definition HEIGHT : Z := 32%Z.
Definition SINK_SPEED : Q := 0.18.
Definition CLIMB_SPEED : Q := 0.3.
Definition CLIMB_DURATION : Q := 333.3.

Record t : Type := mk { x : Q; y : Q; msec_to_climb : Q }.

(** [Bird.__init__(x, y, msec_to_climb, images)] *)
Definition init (x0 y0 : Z) (climb0 : Q) : t :=
  {| x := inject_Z x0; y := inject_Z y0; msec_to_climb := climb0 |}.

(** The assignment [bird.msec_to_climb = v]. *)
Definition set_msec_to_climb (v : Q) (self : t) : t :=
  {| x := x self; y := y self; msec_to_climb := v |}.

Section Update.
Variable math_cos : Q -> Q.
Variable math_pi : Q.

(** [Bird.update(delta_frames=1)] *)
Definition update (delta_frames : Z) (self : t) : t :=
  if Qltb 0 (msec_to_climb self) then
    let frac_climb_done := 1 - msec_to_climb self / CLIMB_DURATION in
    {| x := x self;
       y := y self
            - CLIMB_SPEED * frames_to_msec delta_frames FPS
              * (1 - math_cos (frac_climb_done * math_pi));
       msec_to_climb :=
         msec_to_climb self - frames_to_msec delta_frames FPS |}
  else
    {| x := x self;
       y := y self + SINK_SPEED * frames_to_msec delta_frames FPS;
       msec_to_climb := msec_to_climb self |}.
End Update.

End Bird.

(** ** PipePair *)

Module PipePair.

Definition WIDTH : Z := 80%Z.
Definition PIECE_HEIGHT : Z := 32%Z.
Definition ADD_INTERVAL : Z := 3000%Z.

Record t : Type := mk {
  x : Q;
  score_counted : bool;
  top_pieces : Z;
  bottom_pieces : Z
}.

(** The local [total_pipe_body_pieces] of [__init__]. *)
Definition total_pipe_body_pieces : Z :=
  int (inject_Z (WIN_HEIGHT - 3 * Bird.HEIGHT - 3 * PIECE_HEIGHT)
       / inject_Z PIECE_HEIGHT).

(** [top_height_px] and [bottom_height_px] *)
Definition top_height_px (self : t) : Z := (top_pieces self * PIECE_HEIGHT)%Z.
Definition bottom_height_px (self : t) : Z :=
  (bottom_pieces self * PIECE_HEIGHT)%Z.

(** [__init__] up to the drawing of the two pipes: [randint] has returned
    [draw]; the piece counts are those of the body pieces. *)
Definition init_body (draw : Z) : t :=
  {| x := inject_Z (WIN_WIDTH - 1);
     score_counted := false;
     top_pieces := (total_pipe_body_pieces - draw)%Z;
     bottom_pieces := draw |}.

(** Where [__init__] blits the two end pieces: the top edge of the bottom
    pipe's end piece and the top edge of the top pipe's end piece, both
    computed before the counts are compensated. *)
Definition bottom_end_piece_y (body : t) : Z :=
  (WIN_HEIGHT - bottom_height_px body - PIECE_HEIGHT)%Z.
Definition top_end_piece_y (body : t) : Z := top_height_px body.

(** "compensate for added end pieces" *)
Definition compensate (self : t) : t :=
  {| x := x self;
     score_counted := score_counted self;
     top_pieces := (top_pieces self + 1)%Z;
     bottom_pieces := (bottom_pieces self + 1)%Z |}.

(** [PipePair.__init__], with the random draw as argument. *)
Definition init (draw : Z) : t := compensate (init_body draw).

(** [visible]: [-PipePair.WIDTH < self.x < WIN_WIDTH] *)
Definition visible (self : t) : bool :=
  Qltb (inject_Z (- WIDTH)) (x self) && Qltb (x self) (inject_Z WIN_WIDTH).

(** [PipePair.update(delta_frames=1)] *)
Definition update (delta_frames : Z) (self : t) : t :=
  {| x := x self - ANIMATION_SPEED * frames_to_msec delta_frames FPS;
     score_counted := score_counted self;
     top_pieces := top_pieces self;
     bottom_pieces := bottom_pieces self |}.

(** The assignment [p.score_counted = True]. *)
Definition set_score_counted (self : t) : t :=
  {| x := x self;
     score_counted := true;
     top_pieces := top_pieces self;
     bottom_pieces := bottom_pieces self |}.

End PipePair.

(** ** Events *)

Inductive event_type : Type :=
  QUIT | KEYUP | KEYDOWN | MOUSEBUTTONUP | MOUSEMOTION.

Inductive key_code : Type :=
  K_ESCAPE | K_PAUSE | K_p | K_UP | K_RETURN | K_SPACE | K_a.

Record Event : Type := { e_type : event_type; e_key : key_code }.

Definition is_KEYUP (e : Event) : bool :=
  match e_type e with KEYUP => true | _ => false end.

(** [e.type == QUIT or (e.type == KEYUP and e.key == K_ESCAPE)] *)
Definition quits (e : Event) : bool :=
  match e_type e with QUIT => true | _ => false end
  || (is_KEYUP e && match e_key e with K_ESCAPE => true | _ => false end).

(** [e.type == KEYUP and e.key in (K_PAUSE, K_p)] *)
Definition toggles_pause (e : Event) : bool :=
  is_KEYUP e && match e_key e with K_PAUSE | K_p => true | _ => false end.

(** [e.type == MOUSEBUTTONUP or
     (e.type == KEYUP and e.key in (K_UP, K_RETURN, K_SPACE))] *)
Definition climbs (e : Event) : bool :=
  match e_type e with MOUSEBUTTONUP => true | _ => false end
  || (is_KEYUP e
      && match e_key e with K_UP | K_RETURN | K_SPACE => true | _ => false end).

(** ** Game *)

Module Game.

Record t : Type := mk {
  bird : Bird.t;
  pipes : list PipePair.t;
  frame_clock : Z;
  score : Z;
  done : bool;
  paused : bool
}.

Definition set_bird (b : Bird.t) (self : t) : t :=
  mk b (pipes self) (frame_clock self) (score self) (done self) (paused self).
Definition set_pipes (ps : list PipePair.t) (self : t) : t :=
  mk (bird self) ps (frame_clock self) (score self) (done self) (paused self).
Definition set_frame_clock (n : Z) (self : t) : t :=
  mk (bird self) (pipes self) n (score self) (done self) (paused self).
Definition set_score (n : Z) (self : t) : t :=
  mk (bird self) (pipes self) (frame_clock self) n (done self) (paused self).
Definition set_done (d : bool) (self : t) : t :=
  mk (bird self) (pipes self) (frame_clock self) (score self) d (paused self).
Definition set_paused (p : bool) (self : t) : t :=
  mk (bird self) (pipes self) (frame_clock self) (score self) (done self) p.

(** [Game.__init__] *)
Definition init : t :=
  {| bird := Bird.init 50
               (int (inject_Z WIN_HEIGHT / 2 - inject_Z Bird.HEIGHT / 2)) 2;
     pipes := [];
     frame_clock := 0%Z;
     score := 0%Z;
     done := false;
     paused := false |}.

(** [handle_events]: the [for] loop over the pending events, left by
    [break] at the first quit event. *)
Fixpoint handle_events (events : list Event) (self : t) : t :=
  match events with
  | [] => self
  | e :: rest =>
      if quits e then set_done true self
      else if toggles_pause e then
        handle_events rest (set_paused (negb (paused self)) self)
      else if climbs e then
        handle_events rest
          (set_bird (Bird.set_msec_to_climb Bird.CLIMB_DURATION (bird self))
             self)
      else handle_events rest self
  end.

(** [while self.pipes and not self.pipes[0].visible: self.pipes.popleft()] *)
Fixpoint cull (ps : list PipePair.t) : list PipePair.t :=
  match ps with
  | [] => []
  | p :: rest => if negb (PipePair.visible p) then cull rest else ps
  end.

(** The last loop of [update_world]:
    [if p.x + PipePair.WIDTH < self.bird.x and not p.score_counted:
       self.score += 1; p.score_counted = True], for each pipe in turn. *)
Fixpoint score_pass (bird_x : Q) (ps : list PipePair.t) (sc : Z)
  : list PipePair.t * Z :=
  match ps with
  | [] => ([], sc)
  | p :: rest =>
      if Qltb (PipePair.x p + inject_Z PipePair.WIDTH) bird_x
         && negb (PipePair.score_counted p)
      then
        let '(rest', sc') := score_pass bird_x rest (sc + 1)%Z in
        (PipePair.set_score_counted p :: rest', sc')
      else
        let '(rest', sc') := score_pass bird_x rest sc in
        (p :: rest', sc')
  end.

Section World.
Variable math_cos : Q -> Q.
Variable math_pi : Q.
Variable collide_mask : PipePair.t -> Bird.t -> bool.

(** The condition under which [update_world] sets [done]. *)
Definition collision (self : t) : bool :=
  existsb (fun p => collide_mask p (bird self)) (pipes self)
  || Qle_bool (Bird.y (bird self)) 0
  || Qle_bool (inject_Z (WIN_HEIGHT - Bird.HEIGHT)) (Bird.y (bird self)).

(** The first statement of [update_world]: a new pipe every
    [msec_to_frames(ADD_INTERVAL)] frames, unless paused. *)
Definition spawn (draw : Z) (self : t) : t :=
  if negb (paused self
           || truthy (pymod (inject_Z (frame_clock self))
                        (msec_to_frames PipePair.ADD_INTERVAL FPS)))
  then set_pipes (pipes self ++ [PipePair.init draw]) self
  else self.

(** [update_world]; [draw] is what [randint] returns if a pipe is made. *)
Definition update_world (draw : Z) (self : t) : t :=
  let self := spawn draw self in
  if negb (paused self) then
    let self := if collision self then set_done true self else self in
    let self := set_pipes (cull (pipes self)) self in
    let self := set_pipes (map (PipePair.update 1) (pipes self)) self in
    let self := set_bird (Bird.update math_cos math_pi 1 (bird self)) self in
    let '(ps, sc) :=
      score_pass (Bird.x (bird self)) (pipes self) (score self) in
    set_score sc (set_pipes ps self)
  else self.

(** [render_world]: the only state it changes is the frame counter. *)
Definition render_world (self : t) : t :=
  set_frame_clock (frame_clock self + 1)%Z self.

(** One iteration of the main loop's body. *)
Definition tick (events : list Event) (draw : Z) (self : t) : t :=
  render_world (update_world draw (handle_events events self)).

(** [while not game.is_ended(): ...], over the inputs of each frame. *)
Fixpoint main_loop (inputs : list (list Event * Z)) (self : t) : t :=
  match inputs with
  | [] => self
  | (events, draw) :: rest =>
      if done self then self else main_loop rest (tick events draw self)
  end.

(** Bird states the game can produce: the constructor, then any number
    of [update()] calls and climb inputs. *)
Inductive bird_reachable : Bird.t -> Prop :=
| reach_init : forall x0 y0, bird_reachable (Bird.init x0 y0 2)
| reach_update : forall b,
    bird_reachable b -> bird_reachable (Bird.update math_cos math_pi 1 b)
| reach_climb : forall b,
    bird_reachable b ->
    bird_reachable (Bird.set_msec_to_climb Bird.CLIMB_DURATION b).

End World.

End Game.

(** ** Stand-ins used to run the model on concrete inputs *)

(** A rational cosine (the Taylor polynomial of degree 6) and a rational
    pi, for evaluating [Bird.update]; every theorem below that is not an
    evaluation holds for any [math_cos] and [math_pi]. *)
Definition cos_q (a : Q) : Q :=
  1 - a * a / 2 + a * a * a * a / 24 - a * a * a * a * a * a / 720.
Definition pi_q : Q := 355 # 113.

(** Masks that never overlap. *)
Definition no_contact (_ : PipePair.t) (_ : Bird.t) : bool := false.

(** ** Vocabulary of the statements *)

(** The gap between the two pipes of a pair, in pixels: from the bottom
    edge of the top pipe to the top edge of the bottom pipe. *)
Definition gap_px (p : PipePair.t) : Z :=
  (WIN_HEIGHT - PipePair.bottom_height_px p - PipePair.top_height_px p)%Z.

(** A pipe pair at a given abscissa, as [PipePair.update] leaves one. *)
Definition pipe_at (x0 : Q) : PipePair.t :=
  {| PipePair.x := x0; PipePair.score_counted := false;
     PipePair.top_pieces := 6; PipePair.bottom_pieces := 6 |}.

(** Head-first ascending abscissas: each pipe is at or left of the next. *)
Definition x_le (p q : PipePair.t) : Prop := PipePair.x p <= PipePair.x q.
Definition ascending (ps : list PipePair.t) : Prop := Sorted x_le ps.

(** The test of the scoring loop on one pipe. *)
Definition scores_now (bird_x : Q) (p : PipePair.t) : bool :=
  Qltb (PipePair.x p + inject_Z PipePair.WIDTH) bird_x
  && negb (PipePair.score_counted p).

Definition mark (bird_x : Q) (p : PipePair.t) : PipePair.t :=
  if scores_now bird_x p then PipePair.set_score_counted p else p.

(** Pipes a scoring pass at [bird_x] will count. *)
Definition newly (bird_x : Q) (ps : list PipePair.t) : Z :=
  Z.of_nat (length (filter (scores_now bird_x) ps)).

(** Pipes whose [score_counted] flag is still false. *)
Definition uncounted (ps : list PipePair.t) : Z :=
  Z.of_nat (length (filter (fun p => negb (PipePair.score_counted p)) ps)).

(** The pipes once culled and moved, before the scoring loop. *)
Definition moved_pipes (draw : Z) (g : Game.t) : list PipePair.t :=
  map (PipePair.update 1) (Game.cull (Game.pipes (Game.spawn draw g))).

(** ** Concrete states *)

(** A game nobody plays: at frame 85 the bird, sinking since the first
    frame, has reached the bottom band of the window; the pipe made at
    frame 0 is at x = 312. *)
Definition crash_state : Game.t :=
  {| Game.bird := {| Bird.x := 50; Bird.y := 482;
                     Bird.msec_to_climb := - (44 # 3) |};
     Game.pipes := [pipe_at 312];
     Game.frame_clock := 85;
     Game.score := 0;
     Game.done := false;
     Game.paused := false |}.

(** Frame 199 of a game in which the bird has been kept in the air: the
    pipe made at frame 0 is at x = -30, about to pass behind the bird; the
    one made at frame 180 is at x = 510. *)
Definition passing_state : Game.t :=
  {| Game.bird := {| Bird.x := 50; Bird.y := 200;
                     Bird.msec_to_climb := - (1 # 30) |};
     Game.pipes := [pipe_at (-30); pipe_at 510];
     Game.frame_clock := 199;
     Game.score := 0;
     Game.done := false;
     Game.paused := false |}.

(** The fresh game after a frame in which the pause key was released. *)
Definition paused_state : Game.t :=
  Game.tick cos_q pi_q no_contact [{| e_type := KEYUP; e_key := K_p |}] 5
    Game.init.

(** ** The pieces drawn by [PipePair.__init__] *)

(** Python's [range(a, b)]. *)
Definition range (a b : Z) : list Z :=
  map (fun i => (a + Z.of_nat i)%Z) (seq 0 (Z.to_nat (b - a))).

(** The ordinates of the body pieces of the bottom pipe:
    [for i in range(1, self.bottom_pieces + 1):
       piece_pos = (0, WIN_HEIGHT - i * PipePair.PIECE_HEIGHT)],
    run before the counts are compensated. *)
Definition bottom_body_piece_ys (body : PipePair.t) : list Z :=
  map (fun i => (WIN_HEIGHT - i * PipePair.PIECE_HEIGHT)%Z)
    (range 1 (PipePair.bottom_pieces body + 1)).

(** The ordinates of the body pieces of the top pipe:
    [for i in range(self.top_pieces):
       self.image.blit(pipe_body_img, (0, i * PipePair.PIECE_HEIGHT))]. *)
Definition top_body_piece_ys (body : PipePair.t) : list Z :=
  map (fun i => (i * PipePair.PIECE_HEIGHT)%Z)
    (range 0 (PipePair.top_pieces body)).

(** ** Game states of a run *)

Section Reach.
Variable math_cos : Q -> Q.
Variable math_pi : Q.
Variable collide_mask : PipePair.t -> Bird.t -> bool.

(** The states the three methods can produce from a fresh game, called in
    any order, with any events and any random draws; the states of the
    main loop are among them. *)
Inductive game_reachable : Game.t -> Prop :=
| game_fresh : game_reachable Game.init
| game_events : forall events g,
    game_reachable g -> game_reachable (Game.handle_events events g)
| game_update : forall draw g,
    game_reachable g ->
    game_reachable (Game.update_world math_cos math_pi collide_mask draw g)
| game_render : forall g,
    game_reachable g -> game_reachable (Game.render_world g).

End Reach.



(** A cosine stand-in that stays within [-1, 1]. *)
Definition cos_clamped (a : Q) : Q :=
  if Qle_bool (cos_q a) (-1) then -1
  else if Qle_bool 1 (cos_q a) then 1 else cos_q a.

(** Frames in which nothing is pressed. *)
Definition idle_frames (n : nat) (draw : Z) : list (list Event * Z) :=
  repeat ([], draw) n.

(** * Properties *)

(** ** Arithmetic helpers *)

Lemma Qltb_lt (a b : Q) : Qltb a b = true <-> a < b.
Proof.
  unfold Qltb. rewrite negb_true_iff. split.
  - intros H. apply Qnot_le_lt. intros Hle.
    apply Qle_bool_iff in Hle. congruence.
  - intros H. destruct (Qle_bool b a) eqn:E; [|reflexivity].
    apply Qle_bool_iff in E. exfalso. apply (Qlt_not_le _ _ H E).
Qed.

Lemma Qltb_ge (a b : Q) : Qltb a b = false <-> b <= a.
Proof.
  unfold Qltb. rewrite negb_false_iff. apply Qle_bool_iff.
Qed.

Lemma frame_msec : frames_to_msec 1 FPS == 50 # 3.
Proof. reflexivity. Qed.

Lemma pipe_step : ANIMATION_SPEED * frames_to_msec 1 FPS == 3.
Proof. reflexivity. Qed.

Lemma total_pipe_body_pieces_value : PipePair.total_pipe_body_pieces = 10%Z.
Proof. reflexivity. Qed.

(** ** Pipe geometry *)

(** C1, as stated, fails: with the draw 1 the gap of the constructed pair
    is not [3 * Bird.HEIGHT] (it is 128, not 96). *)
Lemma C1_gap_is_not_three_birds :
  gap_px (PipePair.init 1) <> (3 * Bird.HEIGHT)%Z.
Proof. vm_compute. discriminate. Qed.

(** C1 (amended): whatever [randint] returns, the gap of a constructed
    PipePair is [3 * Bird.HEIGHT + PipePair.PIECE_HEIGHT], that is 128
    pixels; it is also the distance between the two end pieces as they are
    drawn (the bottom edge of the top end piece and the top edge of the
    bottom end piece). *)
Theorem C1_gap_after_construction (draw : Z) :
  gap_px (PipePair.init draw) = (3 * Bird.HEIGHT + PipePair.PIECE_HEIGHT)%Z
  /\ gap_px (PipePair.init draw) = 128%Z
  /\ (PipePair.bottom_end_piece_y (PipePair.init_body draw)
      - (PipePair.top_end_piece_y (PipePair.init_body draw)
         + PipePair.PIECE_HEIGHT))%Z
     = gap_px (PipePair.init draw).
Proof.
  unfold gap_px, PipePair.bottom_end_piece_y, PipePair.top_end_piece_y,
    PipePair.bottom_height_px, PipePair.top_height_px, PipePair.init,
    PipePair.compensate, PipePair.init_body.
  cbn [PipePair.top_pieces PipePair.bottom_pieces].
  rewrite total_pipe_body_pieces_value.
  unfold WIN_HEIGHT, Bird.HEIGHT, PipePair.PIECE_HEIGHT. lia.
Qed.

(** C5, as stated, fails: after the construction with the draw 1 the two
    counts do not add up to [total_pipe_body_pieces] (12, not 10). *)
Lemma C5_sum_is_not_total :
  (PipePair.top_pieces (PipePair.init 1)
   + PipePair.bottom_pieces (PipePair.init 1))%Z
  <> PipePair.total_pipe_body_pieces.
Proof. vm_compute. discriminate. Qed.

(** C5 (amended): [total_pipe_body_pieces] is
    [floor((WIN_HEIGHT - 3*Bird.HEIGHT - 3*PIECE_HEIGHT) / PIECE_HEIGHT)],
    which is 10; the body pieces of the two pipes add up to it; after the
    construction, where each count has been increased by one for the end
    piece, [top_pieces + bottom_pieces] is that constant plus 2, which is
    12, whatever the random draw. *)
Theorem C5_piece_count_sum (draw : Z) :
  PipePair.total_pipe_body_pieces
  = ((WIN_HEIGHT - 3 * Bird.HEIGHT - 3 * PipePair.PIECE_HEIGHT)
     / PipePair.PIECE_HEIGHT)%Z
  /\ PipePair.total_pipe_body_pieces = 10%Z
  /\ (PipePair.top_pieces (PipePair.init_body draw)
      + PipePair.bottom_pieces (PipePair.init_body draw))%Z
     = PipePair.total_pipe_body_pieces
  /\ (PipePair.top_pieces (PipePair.init draw)
      + PipePair.bottom_pieces (PipePair.init draw))%Z
     = (PipePair.total_pipe_body_pieces + 2)%Z
  /\ forall draw' : Z,
       (PipePair.top_pieces (PipePair.init draw')
        + PipePair.bottom_pieces (PipePair.init draw'))%Z
       = (PipePair.top_pieces (PipePair.init draw)
          + PipePair.bottom_pieces (PipePair.init draw))%Z.
Proof.
  repeat split; try reflexivity;
    unfold PipePair.init, PipePair.compensate, PipePair.init_body;
    cbn [PipePair.top_pieces PipePair.bottom_pieces]; intros; lia.
Qed.

(** ** Visibility *)

(** C4, as stated, fails at its second scenario: a PipePair at x = -80 is
    not visible, the comparison with [-WIDTH] being strict. *)
Lemma C4_not_visible_at_minus_width :
  PipePair.visible (pipe_at (-80)) = false.
Proof. reflexivity. Qed.

(** C4 (amended): [visible] is true if and only if
    [-WIDTH < x < WIN_WIDTH]; with the window 568 wide and pipes 80 wide, a
    PipePair at x = -81 and one at x = -80 are not visible, and one at
    x = -79 is. *)
Theorem C4_visible_iff (p : PipePair.t) :
  (PipePair.visible p = true
   <-> inject_Z (- PipePair.WIDTH) < PipePair.x p
       /\ PipePair.x p < inject_Z WIN_WIDTH)
  /\ WIN_WIDTH = 568%Z /\ PipePair.WIDTH = 80%Z
  /\ PipePair.visible (pipe_at (-81)) = false
  /\ PipePair.visible (pipe_at (-80)) = false
  /\ PipePair.visible (pipe_at (-79)) = true.
Proof.
  split; [|repeat split].
  unfold PipePair.visible. rewrite andb_true_iff, !Qltb_lt. tauto.
Qed.

(** ** Culling *)

Lemma cull_split (ps : list PipePair.t) :
  exists removed,
    ps = removed ++ Game.cull ps
    /\ Forall (fun p => PipePair.visible p = false) removed.
Proof.
  induction ps as [|p rest IH]; simpl.
  - exists []. split; [reflexivity | constructor].
  - destruct (PipePair.visible p) eqn:E; simpl.
    + exists []. split; [reflexivity | constructor].
    + destruct IH as [removed [Heq Hall]].
      exists (p :: removed). split.
      * simpl. f_equal. exact Heq.
      * constructor; assumption.
Qed.

Lemma cull_head_visible (ps : list PipePair.t) (p : PipePair.t)
  (rest : list PipePair.t) :
  Game.cull ps = p :: rest -> PipePair.visible p = true.
Proof.
  induction ps as [|q qs IH]; simpl; [discriminate|].
  destruct (PipePair.visible q) eqn:E; simpl.
  - intros H. injection H as -> _. exact E.
  - exact IH.
Qed.

Lemma cull_suffix_ascending (ps : list PipePair.t) :
  StronglySorted x_le ps -> StronglySorted x_le (Game.cull ps).
Proof.
  induction 1 as [|p rest Hs IH Hall]; simpl; [constructor|].
  destruct (PipePair.visible p); simpl; [constructor; assumption | exact IH].
Qed.

Lemma cull_suffix_Forall (P : PipePair.t -> Prop) (ps : list PipePair.t) :
  Forall P ps -> Forall P (Game.cull ps).
Proof.
  induction 1 as [|p rest Hp Hall IH]; simpl; [constructor|].
  destruct (PipePair.visible p); simpl; [constructor; assumption | exact IH].
Qed.

Lemma x_le_trans : Relations_1.Transitive x_le.
Proof. intros p q r H1 H2. unfold x_le in *. eapply Qle_trans; eassumption. Qed.

(** C7: the culling loop removes a prefix of the deque made of pipes
    that are not visible, and nothing else; and if the deque is in
    ascending order of x from its head, with every x below the window
    width, every pipe that remains is visible. *)
Theorem C7_cull_offscreen (ps : list PipePair.t) :
  (exists removed,
      ps = removed ++ Game.cull ps
      /\ Forall (fun p => PipePair.visible p = false) removed)
  /\ (ascending ps ->
      Forall (fun p => PipePair.x p < inject_Z WIN_WIDTH) ps ->
      Forall (fun p => PipePair.visible p = true) (Game.cull ps)).
Proof.
  split; [apply cull_split|].
  intros Hasc Hbelow.
  apply (Sorted_StronglySorted x_le_trans) in Hasc.
  apply cull_suffix_ascending in Hasc.
  apply (cull_suffix_Forall _ _) in Hbelow.
  destruct (Game.cull ps) as [|p rest] eqn:E; [constructor|].
  pose proof (cull_head_visible _ _ _ E) as Hvis.
  unfold PipePair.visible in Hvis.
  apply andb_true_iff in Hvis. destruct Hvis as [Hlo _].
  apply Qltb_lt in Hlo.
  inversion Hasc as [|? ? _ Hrest]; subst.
  assert (Hall : Forall (fun q => inject_Z (- PipePair.WIDTH) < PipePair.x q)
                   (p :: rest)).
  { constructor; [exact Hlo|].
    eapply Forall_impl; [|exact Hrest].
    intros q Hq. unfold x_le in Hq. eapply Qlt_le_trans; eassumption. }
  clear - Hall Hbelow.
  rewrite Forall_forall in *. intros q Hq.
  unfold PipePair.visible. apply andb_true_iff.
  split; apply Qltb_lt; auto.
Qed.

(** C7 at a deque of three pipes, the oldest having left the window. *)
Lemma C7_cull_offscreen_witness :
  Forall (fun p => PipePair.visible p = true)
    (Game.cull [pipe_at (-81); pipe_at 117; pipe_at 564]).
Proof.
  apply (proj2 (C7_cull_offscreen [pipe_at (-81); pipe_at 117; pipe_at 564])).
  - repeat constructor; vm_compute; discriminate.
  - repeat constructor.
Defined.

(** ** Scoring *)

Lemma score_pass_spec (bird_x : Q) (ps : list PipePair.t) (sc : Z) :
  Game.score_pass bird_x ps sc
  = (map (mark bird_x) ps, (sc + newly bird_x ps)%Z).
Proof.
  revert sc. induction ps as [|p rest IH]; intros sc.
  - simpl. unfold newly. simpl. f_equal. lia.
  - simpl. unfold mark at 1, newly, scores_now at 1. simpl filter.
    fold (scores_now bird_x p).
    destruct (scores_now bird_x p) eqn:E; rewrite IH; unfold newly;
      simpl length; f_equal; lia.
Qed.

Lemma scores_now_mark (bx bx' : Q) (p : PipePair.t) :
  scores_now bx p = true -> scores_now bx' (mark bx p) = false.
Proof.
  intros H. unfold mark. rewrite H. unfold scores_now. simpl.
  apply andb_false_r.
Qed.

Lemma mark_idem (bx : Q) (p : PipePair.t) : mark bx (mark bx p) = mark bx p.
Proof.
  destruct (scores_now bx p) eqn:E.
  - unfold mark at 1. rewrite (scores_now_mark bx bx p E). reflexivity.
  - unfold mark. rewrite E, E. reflexivity.
Qed.

Lemma newly_mark (bx : Q) (ps : list PipePair.t) :
  newly bx (map (mark bx) ps) = 0%Z.
Proof.
  unfold newly. induction ps as [|p rest IH]; [reflexivity|].
  simpl. destruct (scores_now bx (mark bx p)) eqn:E; [|exact IH].
  exfalso. destruct (scores_now bx p) eqn:E'.
  - rewrite (scores_now_mark bx bx p E') in E. discriminate.
  - unfold mark in E. rewrite E' in E. congruence.
Qed.

Lemma newly_nonneg (bx : Q) (ps : list PipePair.t) : (0 <= newly bx ps)%Z.
Proof. unfold newly. lia. Qed.

Lemma newly_le_length (bx : Q) (ps : list PipePair.t) :
  (newly bx ps <= Z.of_nat (length ps))%Z.
Proof.
  unfold newly. pose proof (filter_length_le (scores_now bx) ps). lia.
Qed.

Lemma two_passes_bound (bx bx' : Q) (ps : list PipePair.t) :
  (newly bx ps + newly bx' (map (mark bx) ps) <= uncounted ps)%Z.
Proof.
  unfold newly, uncounted. induction ps as [|p rest IH]; [simpl; lia|].
  simpl map. simpl filter.
  destruct (scores_now bx p) eqn:E.
  - rewrite (scores_now_mark bx bx' p E).
    unfold scores_now in E. apply andb_true_iff in E. destruct E as [_ E].
    rewrite E. simpl length. lia.
  - unfold mark at 1. rewrite E.
    destruct (scores_now bx' p) eqn:E'.
    + unfold scores_now in E'. apply andb_true_iff in E'.
      destruct E' as [_ E']. rewrite E'. simpl length. lia.
    + destruct (negb (PipePair.score_counted p)); simpl length; lia.
Qed.

(** C8: a scoring pass run a second time, with nothing moved in between,
    changes neither the score nor the pipes; over two passes in a row, at
    whatever bird positions, the score grows by at most the number of pipes
    whose flag was still false, so no pipe is counted twice; and a pipe
    whose [score_counted] is true never makes a pass increment the
    score. *)
Theorem C8_scoring_idempotent (bird_x : Q) (ps : list PipePair.t) (sc : Z) :
  let ps1 := fst (Game.score_pass bird_x ps sc) in
  let sc1 := snd (Game.score_pass bird_x ps sc) in
  Game.score_pass bird_x ps1 sc1 = (ps1, sc1)
  /\ (forall bird_x' : Q,
        let sc2 := snd (Game.score_pass bird_x' ps1 sc1) in
        (sc <= sc1 <= sc2)%Z /\ (sc2 <= sc + uncounted ps)%Z)
  /\ (forall (p : PipePair.t) (bird_x' : Q) (sc' : Z),
        PipePair.score_counted p = true ->
        Game.score_pass bird_x' [p] sc' = ([p], sc')).
Proof.
  cbv zeta. rewrite (score_pass_spec bird_x ps sc). cbn [fst snd].
  repeat split.
  - rewrite score_pass_spec, newly_mark, Z.add_0_r.
    f_equal. rewrite map_map. apply map_ext. intros p. apply mark_idem.
  - pose proof (newly_nonneg bird_x ps). lia.
  - rewrite score_pass_spec. cbn [snd].
    pose proof (newly_nonneg bird_x' (map (mark bird_x) ps)). lia.
  - rewrite score_pass_spec. cbn [snd].
    pose proof (two_passes_bound bird_x bird_x' ps). lia.
  - intros p bx' sc' Hc. simpl. rewrite Hc, andb_false_r. reflexivity.
Qed.

(** C8 at a pipe already counted: a later pass leaves the score alone. *)
Lemma C8_scoring_idempotent_witness :
  Game.score_pass 50 [PipePair.set_score_counted (pipe_at (-40))] 1
  = ([PipePair.set_score_counted (pipe_at (-40))], 1%Z).
Proof.
  apply (proj2 (proj2 (C8_scoring_idempotent 50 [] 0))). reflexivity.
Defined.

(** ** The world update *)

Section WorldFacts.
Variable math_cos : Q -> Q.
Variable math_pi : Q.
Variable collide_mask : PipePair.t -> Bird.t -> bool.

Local Abbreviation update_world :=
  (Game.update_world math_cos math_pi collide_mask).
Local Abbreviation collision := (Game.collision collide_mask).
Local Abbreviation tick := (Game.tick math_cos math_pi collide_mask).
Local Abbreviation bird_update := (Bird.update math_cos math_pi 1).

Lemma bird_update_x (b : Bird.t) : Bird.x (bird_update b) = Bird.x b.
Proof.
  unfold Bird.update.
  destruct (Qltb 0 (Bird.msec_to_climb b)); reflexivity.
Qed.

Lemma spawn_frame (draw : Z) (g : Game.t) :
  Game.bird (Game.spawn draw g) = Game.bird g
  /\ Game.frame_clock (Game.spawn draw g) = Game.frame_clock g
  /\ Game.score (Game.spawn draw g) = Game.score g
  /\ Game.done (Game.spawn draw g) = Game.done g
  /\ Game.paused (Game.spawn draw g) = Game.paused g.
Proof.
  unfold Game.spawn.
  destruct (negb _); repeat split; reflexivity.
Qed.

Lemma spawn_pipes (draw : Z) (g : Game.t) :
  Game.pipes (Game.spawn draw g) = Game.pipes g
  \/ Game.pipes (Game.spawn draw g) = Game.pipes g ++ [PipePair.init draw].
Proof.
  unfold Game.spawn. destruct (negb _); [right | left]; reflexivity.
Qed.

Lemma spawn_paused_id (draw : Z) (g : Game.t) :
  Game.paused g = true -> Game.spawn draw g = g.
Proof. intros H. unfold Game.spawn. rewrite H. reflexivity. Qed.

Lemma update_world_running (draw : Z) (g : Game.t) :
  Game.paused g = false ->
  update_world draw g
  = {| Game.bird := bird_update (Game.bird g);
       Game.pipes := map (mark (Bird.x (Game.bird g))) (moved_pipes draw g);
       Game.frame_clock := Game.frame_clock g;
       Game.score :=
         (Game.score g + newly (Bird.x (Game.bird g)) (moved_pipes draw g))%Z;
       Game.done := Game.done g || collision (Game.spawn draw g);
       Game.paused := false |}.
Proof.
  intros Hp. unfold Game.update_world, moved_pipes.
  destruct (spawn_frame draw g) as (Hb & Hf & Hs & Hd & Hpa).
  rewrite Hpa, Hp. cbn [negb].
  set (g1 := Game.spawn draw g) in *.
  destruct (collision g1) eqn:Ec;
    unfold Game.set_done, Game.set_pipes, Game.set_bird, Game.set_score;
    cbn [Game.bird Game.pipes Game.frame_clock Game.score Game.done
           Game.paused];
    rewrite score_pass_spec, bird_update_x, ?Hb, ?Hf, ?Hs, ?Hd, ?Hpa, ?Hp;
    [rewrite orb_true_r | rewrite orb_false_r]; reflexivity.
Qed.

Lemma update_world_paused (draw : Z) (g : Game.t) :
  Game.paused g = true -> update_world draw g = g.
Proof.
  intros Hp. unfold Game.update_world.
  rewrite (spawn_paused_id draw g Hp), Hp. reflexivity.
Qed.

Lemma handle_events_frame (events : list Event) (g : Game.t) :
  Game.frame_clock (Game.handle_events events g) = Game.frame_clock g
  /\ Game.score (Game.handle_events events g) = Game.score g
  /\ Game.pipes (Game.handle_events events g) = Game.pipes g.
Proof.
  revert g. induction events as [|e rest IH]; intros g; simpl.
  - repeat split.
  - destruct (quits e); [repeat split|].
    destruct (toggles_pause e); [|destruct (climbs e)];
      match goal with
      | |- context [Game.handle_events rest ?g'] =>
          destruct (IH g') as (-> & -> & ->)
      end; repeat split.
Qed.

Lemma update_world_frame_clock (draw : Z) (g : Game.t) :
  Game.frame_clock (update_world draw g) = Game.frame_clock g.
Proof.
  destruct (Game.paused g) eqn:Hp.
  - rewrite update_world_paused by assumption. reflexivity.
  - rewrite update_world_running by assumption. reflexivity.
Qed.

Lemma spawn_set_done (draw : Z) (d : bool) (g : Game.t) :
  Game.spawn draw (Game.set_done d g) = Game.set_done d (Game.spawn draw g).
Proof.
  unfold Game.spawn. cbn [Game.set_done Game.paused Game.frame_clock].
  destruct (negb _); reflexivity.
Qed.

Lemma moved_pipes_set_done (draw : Z) (d : bool) (g : Game.t) :
  moved_pipes draw (Game.set_done d g) = moved_pipes draw g.
Proof. unfold moved_pipes. rewrite spawn_set_done. reflexivity. Qed.

Lemma mark_x (bx : Q) (p : PipePair.t) : PipePair.x (mark bx p) = PipePair.x p.
Proof. unfold mark. destruct (scores_now bx p); reflexivity. Qed.

Lemma cull_length (ps : list PipePair.t) :
  (length (Game.cull ps) <= length ps)%nat.
Proof.
  destruct (cull_split ps) as [removed [Heq _]].
  rewrite Heq at 2. rewrite length_app. lia.
Qed.

Lemma cull_app_visible (ps : list PipePair.t) (q : PipePair.t) :
  PipePair.visible q = true -> Game.cull (ps ++ [q]) = Game.cull ps ++ [q].
Proof.
  intros Hq. induction ps as [|p rest IH]; simpl.
  - rewrite Hq. reflexivity.
  - destruct (PipePair.visible p); simpl; [reflexivity | exact IH].
Qed.

Lemma newly_app (bx : Q) (ps qs : list PipePair.t) :
  newly bx (ps ++ qs) = (newly bx ps + newly bx qs)%Z.
Proof. unfold newly. rewrite filter_app, length_app. lia. Qed.

Lemma newly_map_update_le (bx : Q) (ps : list PipePair.t) :
  (newly bx (map (PipePair.update 1) (Game.cull ps))
   <= Z.of_nat (length ps))%Z.
Proof.
  pose proof (newly_le_length bx (map (PipePair.update 1) (Game.cull ps))).
  pose proof (cull_length ps). rewrite length_map in *. lia.
Qed.

(** A pipe just made is inside the window, and once moved it is not yet
    behind a bird that is itself inside the window. *)
Lemma new_pipe_visible (draw : Z) :
  PipePair.visible (PipePair.init draw) = true.
Proof. reflexivity. Qed.

Lemma new_pipe_not_scored (draw : Z) (bx : Q) :
  bx <= inject_Z WIN_WIDTH ->
  newly bx [PipePair.update 1 (PipePair.init draw)] = 0%Z.
Proof.
  intros Hbx. unfold newly. simpl filter.
  replace (scores_now bx (PipePair.update 1 (PipePair.init draw))) with false;
    [reflexivity|].
  symmetry. unfold scores_now. apply andb_false_iff. left.
  apply Qltb_ge. eapply Qle_trans; [exact Hbx|].
  vm_compute. discriminate.
Qed.

(** [render_world] closes every tick, and nothing else touches the frame
    counter. *)
Lemma frame_clock_every_tick (events : list Event) (draw : Z) (g : Game.t) :
  Game.frame_clock (tick events draw g) = (Game.frame_clock g + 1)%Z.
Proof.
  unfold Game.tick, Game.render_world.
  cbn [Game.set_frame_clock Game.frame_clock].
  rewrite update_world_frame_clock.
  destruct (handle_events_frame events g) as (-> & _). reflexivity.
Qed.

(** C3 (amended): on every tick in which the game is not paused when the
    world is updated, the frame counter advances by exactly 1, and this
    includes the tick in which the collision condition holds and [done] is
    set. *)
Theorem C3_frame_clock_advances_when_not_paused
  (events : list Event) (draw : Z) (g : Game.t) :
  Game.paused (Game.handle_events events g) = false ->
  Game.frame_clock (tick events draw g) = (Game.frame_clock g + 1)%Z
  /\ (collision (Game.spawn draw (Game.handle_events events g)) = true ->
      Game.done (tick events draw g) = true
      /\ Game.frame_clock (tick events draw g) = (Game.frame_clock g + 1)%Z).
Proof.
  intros Hp. split; [apply frame_clock_every_tick|].
  intros Hc. split; [|apply frame_clock_every_tick].
  unfold Game.tick, Game.render_world. cbn [Game.set_frame_clock Game.done].
  rewrite update_world_running by assumption. cbn [Game.done].
  rewrite Hc. apply orb_true_r.
Qed.

(** C2 (amended): in a non-paused call of [update_world] in which the
    collision condition holds (it is tested, as in the code, once the new
    pipe, if one is due, has been appended), [done] is set, and the rest of
    the update is carried out all the same in that call: the pipes that are
    not visible are removed from the head, the remaining ones are moved,
    the bird is updated, and the scoring loop runs; the frame counter and
    the pause flag are left alone, and the main loop stops once the frame
    is rendered. *)
Theorem C2_collision_sets_done_and_world_advances (draw : Z) (g : Game.t) :
  Game.paused g = false ->
  collision (Game.spawn draw g) = true ->
  let g' := update_world draw g in
  Game.done g' = true
  /\ Game.bird g' = bird_update (Game.bird g)
  /\ Game.pipes g'
     = map (mark (Bird.x (Game.bird g)))
         (map (PipePair.update 1) (Game.cull (Game.pipes (Game.spawn draw g))))
  /\ Game.score g'
     = (Game.score g
        + newly (Bird.x (Game.bird g))
            (map (PipePair.update 1)
               (Game.cull (Game.pipes (Game.spawn draw g)))))%Z
  /\ Game.frame_clock g' = Game.frame_clock g
  /\ Game.paused g' = false
  /\ forall rest,
       Game.main_loop math_cos math_pi collide_mask rest (Game.render_world g')
       = Game.render_world g'.
Proof.
  intros Hp Hc. cbv zeta. rewrite (update_world_running draw g Hp).
  cbn [Game.done Game.bird Game.pipes Game.score Game.frame_clock Game.paused].
  rewrite Hc, orb_true_r. repeat split.
  intros rest. destruct rest as [|[events d] rest]; reflexivity.
Qed.

(** C6 (amended): in every reachable Bird state the climb timer satisfies
    [-frames_to_msec(1) < msec_to_climb <= CLIMB_DURATION]; [update] never
    increases it: it takes [frames_to_msec(1)] off a positive timer, which
    may leave it negative, and leaves a timer that is not positive alone;
    only the climb input, which sets it to [CLIMB_DURATION], raises it. *)
Theorem C6_climb_timer_bounds (b : Bird.t) :
  Game.bird_reachable math_cos math_pi b ->
  (- frames_to_msec 1 FPS < Bird.msec_to_climb b
   /\ Bird.msec_to_climb b <= Bird.CLIMB_DURATION)
  /\ Bird.msec_to_climb (bird_update b) <= Bird.msec_to_climb b
  /\ (0 < Bird.msec_to_climb b ->
      Bird.msec_to_climb (bird_update b)
      == Bird.msec_to_climb b - frames_to_msec 1 FPS)
  /\ (Bird.msec_to_climb b <= 0 ->
      Bird.msec_to_climb (bird_update b) = Bird.msec_to_climb b)
  /\ Bird.msec_to_climb (Bird.set_msec_to_climb Bird.CLIMB_DURATION b)
     = Bird.CLIMB_DURATION.
Proof.
  intros Hr. split; [|repeat split].
  - induction Hr as [x0 y0 | b Hr [IHlo IHhi] | b Hr _].
    + cbn [Bird.init Bird.msec_to_climb].
      split; vm_compute; reflexivity || discriminate.
    + unfold Bird.update.
      destruct (Qltb 0 (Bird.msec_to_climb b)) eqn:E; cbn [Bird.msec_to_climb].
      * apply Qltb_lt in E. rewrite frame_msec in *. split; lra.
      * split; assumption.
    + cbn [Bird.set_msec_to_climb Bird.msec_to_climb].
      split; vm_compute; reflexivity || discriminate.
  - unfold Bird.update.
    destruct (Qltb 0 (Bird.msec_to_climb b)) eqn:E; cbn [Bird.msec_to_climb].
    + rewrite frame_msec. lra.
    + apply Qle_refl.
  - intros Hpos. apply Qltb_lt in Hpos. unfold Bird.update. rewrite Hpos.
    cbn [Bird.msec_to_climb]. reflexivity.
  - intros Hle. apply Qltb_ge in Hle. unfold Bird.update. rewrite Hle.
    reflexivity.
Qed.

(** C10: the score is 0 at construction; [handle_events] leaves it as it
    is; [update_world] never decreases it, and increases it by at most the
    number of pipes in the field when the call returns; with the bird
    inside the window, as it always is, that is at most the number of pipes
    in the field when the call was made. *)
Theorem C10_score_monotone :
  Game.score Game.init = 0%Z
  /\ (forall (events : list Event) (g : Game.t),
        Game.score (Game.handle_events events g) = Game.score g)
  /\ (forall (draw : Z) (g : Game.t),
        (Game.score g <= Game.score (update_world draw g))%Z
        /\ (Game.score (update_world draw g)
            <= Game.score g
               + Z.of_nat (length (Game.pipes (update_world draw g))))%Z)
  /\ (forall (draw : Z) (g : Game.t),
        Bird.x (Game.bird g) <= inject_Z WIN_WIDTH ->
        (Game.score (update_world draw g)
         <= Game.score g + Z.of_nat (length (Game.pipes g)))%Z).
Proof.
  split; [reflexivity|]. split; [|split].
  - intros events g. apply handle_events_frame.
  - intros draw g. destruct (Game.paused g) eqn:Hp.
    + rewrite update_world_paused by assumption. lia.
    + rewrite update_world_running by assumption. cbn [Game.score Game.pipes].
      rewrite length_map.
      pose proof (newly_nonneg (Bird.x (Game.bird g)) (moved_pipes draw g)).
      pose proof (newly_le_length (Bird.x (Game.bird g)) (moved_pipes draw g)).
      lia.
  - intros draw g Hx. destruct (Game.paused g) eqn:Hp.
    + rewrite update_world_paused by assumption. lia.
    + rewrite update_world_running by assumption. cbn [Game.score].
      unfold moved_pipes.
      destruct (spawn_pipes draw g) as [-> | ->].
      * pose proof (newly_map_update_le (Bird.x (Game.bird g)) (Game.pipes g)).
        lia.
      * rewrite (cull_app_visible _ _ (new_pipe_visible draw)).
        rewrite map_app, newly_app. cbn [map].
        rewrite (new_pipe_not_scored draw _ Hx).
        pose proof (newly_map_update_le (Bird.x (Game.bird g)) (Game.pipes g)).
        lia.
Qed.

End WorldFacts.

(** C9: [update_world] does not look at [done]: run from two states that
    differ only in [done], it yields the same bird, pipes, score, frame
    counter and pause flag, and this whatever the mask collision test
    answers in either run.  In particular a non-paused call with [done]
    true updates the bird and moves every remaining pipe, and there is a
    state with [done] true and [paused] false from which it changes the
    bird's position, the pipes and the score. *)
Theorem C9_update_world_ignores_done
  (math_cos : Q -> Q) (math_pi : Q)
  (collide_mask collide_mask' : PipePair.t -> Bird.t -> bool)
  (draw : Z) (g : Game.t) (d : bool) :
  let run := Game.update_world math_cos math_pi collide_mask draw in
  let run' := Game.update_world math_cos math_pi collide_mask' draw in
  (Game.bird (run' (Game.set_done d g)) = Game.bird (run g)
   /\ Game.pipes (run' (Game.set_done d g)) = Game.pipes (run g)
   /\ Game.score (run' (Game.set_done d g)) = Game.score (run g)
   /\ Game.frame_clock (run' (Game.set_done d g)) = Game.frame_clock (run g)
   /\ Game.paused (run' (Game.set_done d g)) = Game.paused (run g))
  /\ (Game.paused g = false ->
      Game.bird (run (Game.set_done true g))
      = Bird.update math_cos math_pi 1 (Game.bird g)
      /\ map PipePair.x (Game.pipes (run (Game.set_done true g)))
         = map (fun p => PipePair.x p - ANIMATION_SPEED * frames_to_msec 1 FPS)
             (Game.cull (Game.pipes (Game.spawn draw g))))
  /\ exists g0 : Game.t,
       Game.done g0 = true /\ Game.paused g0 = false
       /\ ~ Bird.y (Game.bird (run g0)) == Bird.y (Game.bird g0)
       /\ Forall2 (fun p' p => ~ PipePair.x p' == PipePair.x p)
            (Game.pipes (run g0)) (Game.pipes g0)
       /\ Game.score (run g0) = (Game.score g0 + 1)%Z.
Proof.
  cbv zeta. split; [|split].
  - destruct (Game.paused g) eqn:Hp.
    + rewrite !update_world_paused by assumption. repeat split.
    + rewrite !update_world_running by assumption.
      rewrite moved_pipes_set_done. repeat split.
  - intros Hp. rewrite update_world_running by assumption.
    cbn [Game.bird Game.pipes Game.set_done]. split; [reflexivity|].
    rewrite moved_pipes_set_done. unfold moved_pipes.
    rewrite !map_map. apply map_ext. intros p. rewrite mark_x. reflexivity.
  - exists (Game.set_done true passing_state).
    split; [reflexivity|]. split; [reflexivity|].
    rewrite update_world_running by reflexivity.
    cbn [Game.bird Game.pipes Game.score].
    split; [|split].
    + vm_compute. discriminate.
    + repeat constructor; vm_compute; discriminate.
    + vm_compute. reflexivity.
Qed.

(** ** The model on concrete states *)

Example game_init_bird : Game.bird Game.init = Bird.init 50 240 2.
Proof. reflexivity. Qed.

Example spawn_at_frame_0 :
  Game.pipes (Game.spawn 5 Game.init) = [PipePair.init 5]
  /\ Game.pipes (Game.spawn 5 (Game.set_frame_clock 1 Game.init)) = []
  /\ Game.pipes (Game.spawn 5 (Game.set_frame_clock 180 Game.init))
     = [PipePair.init 5]
  /\ msec_to_frames PipePair.ADD_INTERVAL FPS == 180.
Proof. repeat split. Qed.

Example paused_state_fields :
  Game.paused paused_state = true /\ Game.done paused_state = false
  /\ Game.frame_clock paused_state = 1%Z /\ Game.pipes paused_state = [].
Proof. repeat split. Qed.

Example crash_state_after_update :
  let g' := Game.update_world cos_q pi_q no_contact 1 crash_state in
  Game.done g' = true
  /\ Bird.y (Game.bird g') == 485
  /\ Forall2 (fun p x' => PipePair.x p == x') (Game.pipes g') [309]
  /\ Game.score g' = 0%Z.
Proof.
  cbv zeta. split; [reflexivity|]. split; [reflexivity|].
  split; [|reflexivity]. repeat constructor.
Qed.

(** C2, as stated, fails: at [crash_state] the game is not paused and the
    collision condition holds (the bird is at y = 482, below
    [WIN_HEIGHT - Bird.HEIGHT] = 480); [update_world] sets [done], and in
    the same call it moves the pipe (from 312 to 309) and the bird (from
    482 to 485). *)
Lemma C2_world_still_advances_on_collision :
  let g' := Game.update_world cos_q pi_q no_contact 1 crash_state in
  Game.paused crash_state = false
  /\ Game.collision no_contact (Game.spawn 1 crash_state) = true
  /\ Game.done g' = true
  /\ Forall2 (fun p' p => ~ PipePair.x p' == PipePair.x p)
       (Game.pipes g') (Game.pipes crash_state)
  /\ ~ Bird.y (Game.bird g') == Bird.y (Game.bird crash_state).
Proof.
  cbv zeta. repeat split.
  - repeat constructor. vm_compute. discriminate.
  - vm_compute. discriminate.
Qed.

(** C2 (amended) at [crash_state]. *)
Lemma C2_collision_sets_done_witness :
  Game.done (Game.update_world cos_q pi_q no_contact 1 crash_state) = true.
Proof.
  apply (C2_collision_sets_done_and_world_advances
           cos_q pi_q no_contact 1 crash_state); reflexivity.
Defined.

(** C3, as stated, fails: the tick at [crash_state] is not paused and
    sets [done], and the frame counter advances by 1 in it all the same
    (from 85 to 86). *)
Lemma C3_frame_clock_advances_on_ending_tick :
  let g' := Game.tick cos_q pi_q no_contact [] 1 crash_state in
  Game.paused crash_state = false
  /\ Game.done crash_state = false
  /\ Game.done g' = true
  /\ Game.frame_clock g' = (Game.frame_clock crash_state + 1)%Z.
Proof. cbv zeta. repeat split. Qed.

(** C3 (amended) at [crash_state]. *)
Lemma C3_frame_clock_advances_witness :
  Game.frame_clock (Game.tick cos_q pi_q no_contact [] 1 crash_state) = 86%Z.
Proof.
  refine (proj1 (C3_frame_clock_advances_when_not_paused
                   cos_q pi_q no_contact [] 1 crash_state _)).
  reflexivity.
Defined.

(** The code at a paused game.  [paused_state] is the fresh game after one
    frame in which the pause key was released: it is paused and its frame
    counter is already 1; a further tick without any event leaves it paused
    and takes the frame counter to 2, although [Game.__init__] says of
    [frame_clock] that "this counter is only incremented if the game isn't
    paused". *)
Example paused_tick_advances_frame_clock :
  Game.paused paused_state = true
  /\ Game.frame_clock paused_state = 1%Z
  /\ Game.paused (Game.tick cos_q pi_q no_contact [] 5 paused_state) = true
  /\ Game.frame_clock (Game.tick cos_q pi_q no_contact [] 5 paused_state) = 2%Z.
Proof. repeat split. Qed.

(** C6, as stated, fails: the bird as [Game.__init__] makes it has 2 ms
    left to climb, and its first [update()] leaves [msec_to_climb] at
    2 - 1000/60, below 0. *)
Lemma C6_timer_goes_below_zero :
  Game.bird_reachable cos_q pi_q
    (Bird.update cos_q pi_q 1 (Game.bird Game.init))
  /\ Bird.msec_to_climb (Bird.update cos_q pi_q 1 (Game.bird Game.init)) < 0.
Proof.
  split.
  - apply Game.reach_update. apply Game.reach_init.
  - reflexivity.
Qed.

(** C6 (amended) at the bird after its first update. *)
Lemma C6_climb_timer_bounds_witness :
  - frames_to_msec 1 FPS
  < Bird.msec_to_climb (Bird.update cos_q pi_q 1 (Game.bird Game.init))
  /\ Bird.msec_to_climb (Bird.update cos_q pi_q 1 (Game.bird Game.init))
     <= Bird.CLIMB_DURATION.
Proof.
  apply (C6_climb_timer_bounds cos_q pi_q
           (Bird.update cos_q pi_q 1 (Game.bird Game.init))).
  apply Game.reach_update. apply Game.reach_init.
Defined.

(** C9 at [crash_state] with [done] already set. *)
Lemma C9_update_world_ignores_done_witness :
  Game.bird (Game.update_world cos_q pi_q no_contact 1
               (Game.set_done true crash_state))
  = Bird.update cos_q pi_q 1 (Game.bird crash_state).
Proof.
  apply (proj1 (proj2 (C9_update_world_ignores_done
                         cos_q pi_q no_contact no_contact 1 crash_state
                         true))).
  reflexivity.
Defined.

(** C10 at the fresh game. *)
Lemma C10_score_monotone_witness :
  (Game.score (Game.update_world cos_q pi_q no_contact 5 Game.init)
   <= Game.score Game.init + Z.of_nat (length (Game.pipes Game.init)))%Z.
Proof.
  apply (proj2 (proj2 (proj2 (C10_score_monotone cos_q pi_q no_contact)))).
  vm_compute. discriminate.
Defined.

(** * Further properties of the code *)

(** ** Event handling *)

Lemma pause_is_not_climb (e : Event) :
  toggles_pause e = true -> climbs e = false.
Proof. destruct e as [[] []]; cbn; congruence. Qed.

Lemma handle_events_keeps (events : list Event) (g : Game.t) :
  Bird.x (Game.bird (Game.handle_events events g)) = Bird.x (Game.bird g)
  /\ Bird.y (Game.bird (Game.handle_events events g)) = Bird.y (Game.bird g)
  /\ Game.pipes (Game.handle_events events g) = Game.pipes g
  /\ Game.score (Game.handle_events events g) = Game.score g
  /\ Game.frame_clock (Game.handle_events events g) = Game.frame_clock g.
Proof.
  revert g. induction events as [|e rest IH]; intros g; simpl.
  - repeat split.
  - destruct (quits e); [repeat split|].
    destruct (toggles_pause e); [|destruct (climbs e)];
      match goal with
      | |- context [Game.handle_events rest ?g'] =>
          destruct (IH g') as (-> & -> & -> & -> & ->)
      end; repeat split.
Qed.

Lemma handle_events_done (events : list Event) (g : Game.t) :
  Game.done (Game.handle_events events g)
  = Game.done g || existsb quits events.
Proof.
  revert g. induction events as [|e rest IH]; intros g; simpl.
  - symmetry. apply orb_false_r.
  - destruct (quits e); simpl; [symmetry; apply orb_true_r|].
    destruct (toggles_pause e); [|destruct (climbs e)]; rewrite IH;
      reflexivity.
Qed.

Lemma handle_events_timer (events : list Event) (g : Game.t) :
  Bird.msec_to_climb (Game.bird (Game.handle_events events g))
  = Bird.msec_to_climb (Game.bird g)
  \/ Bird.msec_to_climb (Game.bird (Game.handle_events events g))
     = Bird.CLIMB_DURATION.
Proof.
  revert g. induction events as [|e rest IH]; intros g; simpl.
  - left. reflexivity.
  - destruct (quits e); [left; reflexivity|].
    destruct (toggles_pause e);
      [exact (IH (Game.set_paused (negb (Game.paused g)) g))|].
    destruct (climbs e); [|apply IH].
    destruct (IH (Game.set_bird
                    (Bird.set_msec_to_climb Bird.CLIMB_DURATION (Game.bird g))
                    g)) as [H | H]; right; rewrite H; reflexivity.
Qed.

Lemma handle_events_no_quit (events : list Event) (g : Game.t) :
  existsb quits events = false ->
  Game.handle_events events g
  = {| Game.bird :=
         if existsb climbs events
         then Bird.set_msec_to_climb Bird.CLIMB_DURATION (Game.bird g)
         else Game.bird g;
       Game.pipes := Game.pipes g;
       Game.frame_clock := Game.frame_clock g;
       Game.score := Game.score g;
       Game.done := Game.done g;
       Game.paused :=
         xorb (Game.paused g)
           (Nat.odd (length (filter toggles_pause events))) |}.
Proof.
  revert g. induction events as [|e rest IH]; intros g Hq.
  - simpl. rewrite xorb_false_r. destruct g; reflexivity.
  - simpl in Hq. apply orb_false_iff in Hq. destruct Hq as [Hqe Hq].
    simpl. rewrite Hqe.
    destruct (toggles_pause e) eqn:Ep.
    + rewrite (pause_is_not_climb e Ep), (IH _ Hq). simpl.
      rewrite Nat.odd_succ, <- Nat.negb_odd.
      destruct g as [b ps fc sc d pa]; simpl.
      destruct pa, (Nat.odd (length (filter toggles_pause rest)));
        reflexivity.
    + destruct (climbs e) eqn:Ec; rewrite (IH _ Hq); simpl.
      * destruct (existsb climbs rest); reflexivity.
      * reflexivity.
Qed.

Lemma handle_events_app (pre post : list Event) (g : Game.t) :
  existsb quits pre = false ->
  Game.handle_events (pre ++ post) g
  = Game.handle_events post (Game.handle_events pre g).
Proof.
  revert g. induction pre as [|e rest IH]; intros g Hq; [reflexivity|].
  simpl in Hq. apply orb_false_iff in Hq. destruct Hq as [Hqe Hq].
  simpl. rewrite Hqe.
  destruct (toggles_pause e); [|destruct (climbs e)]; apply IH; exact Hq.
Qed.

(** X1: [handle_events] never touches the bird's position, the pipes, the
    score or the frame counter; it leaves the climb timer as it was or sets
    it to [CLIMB_DURATION]; and [done] afterwards is true exactly when it
    was true before or the pending events hold a quit event, so it is never
    cleared. *)
Theorem handle_events_frame_and_done (events : list Event) (g : Game.t) :
  let g' := Game.handle_events events g in
  Bird.x (Game.bird g') = Bird.x (Game.bird g)
  /\ Bird.y (Game.bird g') = Bird.y (Game.bird g)
  /\ Game.pipes g' = Game.pipes g
  /\ Game.score g' = Game.score g
  /\ Game.frame_clock g' = Game.frame_clock g
  /\ (Bird.msec_to_climb (Game.bird g') = Bird.msec_to_climb (Game.bird g)
      \/ Bird.msec_to_climb (Game.bird g') = Bird.CLIMB_DURATION)
  /\ Game.done g' = Game.done g || existsb quits events.
Proof.
  cbv zeta.
  destruct (handle_events_keeps events g) as (Hx & Hy & Hp & Hs & Hf).
  repeat split; try assumption.
  - apply handle_events_timer.
  - apply handle_events_done.
Qed.

(** X2: when the pending events hold no quit event, [handle_events] flips
    [paused] once per pause event, so that an even number of them cancels,
    and sets the climb timer to [CLIMB_DURATION] if there is a climb event
    at all, whether the game is paused or not; the rest of the state,
    [done] included, stays as it was. *)
Theorem handle_events_without_quit (events : list Event) (g : Game.t) :
  existsb quits events = false ->
  let g' := Game.handle_events events g in
  Game.paused g'
  = xorb (Game.paused g) (Nat.odd (length (filter toggles_pause events)))
  /\ Game.bird g'
     = (if existsb climbs events
        then Bird.set_msec_to_climb Bird.CLIMB_DURATION (Game.bird g)
        else Game.bird g)
  /\ Game.done g' = Game.done g
  /\ Game.pipes g' = Game.pipes g
  /\ Game.score g' = Game.score g
  /\ Game.frame_clock g' = Game.frame_clock g.
Proof.
  intros Hq. cbv zeta. rewrite (handle_events_no_quit events g Hq).
  repeat split.
Qed.

(** X2 at a paused game: pause, climb, pause. *)
Lemma handle_events_without_quit_witness :
  Game.paused
    (Game.handle_events
       [ {| e_type := KEYUP; e_key := K_p |};
         {| e_type := MOUSEBUTTONUP; e_key := K_a |};
         {| e_type := KEYUP; e_key := K_PAUSE |} ] paused_state)
  = xorb (Game.paused paused_state) false.
Proof.
  refine (proj1 (handle_events_without_quit
                   [ {| e_type := KEYUP; e_key := K_p |};
                     {| e_type := MOUSEBUTTONUP; e_key := K_a |};
                     {| e_type := KEYUP; e_key := K_PAUSE |} ]
                   paused_state _)).
  reflexivity.
Defined.

(** X3: a quit event ends the handling of the pending events: the events
    before it have their effect, [done] is set, and the events after it are
    not looked at in that call. *)
Theorem handle_events_stops_at_quit
  (pre post : list Event) (q : Event) (g : Game.t) :
  existsb quits pre = false ->
  quits q = true ->
  Game.handle_events (pre ++ q :: post) g
  = Game.set_done true (Game.handle_events pre g).
Proof.
  intros Hpre Hq. rewrite (handle_events_app pre (q :: post) g Hpre).
  simpl. rewrite Hq. reflexivity.
Qed.

(** X3 at a fresh game: a climb, the escape key, then a pause that is not
    handled. *)
Lemma handle_events_stops_at_quit_witness :
  Game.handle_events
    ([ {| e_type := KEYUP; e_key := K_SPACE |} ]
     ++ {| e_type := KEYUP; e_key := K_ESCAPE |}
        :: [ {| e_type := KEYUP; e_key := K_p |} ]) Game.init
  = Game.set_done true
      (Game.handle_events [ {| e_type := KEYUP; e_key := K_SPACE |} ]
         Game.init).
Proof.
  apply handle_events_stops_at_quit; reflexivity.
Defined.

(** ** Frames *)




Section RunFacts.
Variable math_cos : Q -> Q.
Variable math_pi : Q.
Variable collide_mask : PipePair.t -> Bird.t -> bool.

Local Abbreviation update_world :=
  (Game.update_world math_cos math_pi collide_mask).
Local Abbreviation collision := (Game.collision collide_mask).
Local Abbreviation tick := (Game.tick math_cos math_pi collide_mask).
Local Abbreviation main_loop :=
  (Game.main_loop math_cos math_pi collide_mask).

Lemma update_world_done (draw : Z) (g : Game.t) :
  Game.done (update_world draw g)
  = Game.done g
    || (negb (Game.paused g) && collision (Game.spawn draw g)).
Proof.
  destruct (Game.paused g) eqn:Hp.
  - rewrite (update_world_paused _ _ _ draw g Hp). simpl.
    symmetry. apply orb_false_r.
  - rewrite (update_world_running _ _ _ draw g Hp). reflexivity.
Qed.

Lemma tick_done (events : list Event) (draw : Z) (g : Game.t) :
  Game.done g = true \/ existsb quits events = true ->
  Game.done (tick events draw g) = true.
Proof.
  intros H. unfold Game.tick, Game.render_world.
  cbn [Game.set_frame_clock Game.done].
  rewrite update_world_done, handle_events_done.
  destruct H as [-> | ->]; [reflexivity|].
  rewrite orb_true_r. reflexivity.
Qed.

Lemma main_loop_done (inputs : list (list Event * Z)) (g : Game.t) :
  Game.done g = true -> main_loop inputs g = g.
Proof.
  intros Hd. destruct inputs as [|[events draw] rest]; simpl;
    [|rewrite Hd]; reflexivity.
Qed.

Lemma main_loop_app (a b : list (list Event * Z)) (g : Game.t) :
  main_loop (a ++ b) g = main_loop b (main_loop a g).
Proof.
  revert g. induction a as [|[events draw] rest IH]; intros g;
    [reflexivity|].
  simpl. destruct (Game.done g) eqn:Hd.
  - symmetry. apply main_loop_done. exact Hd.
  - apply IH.
Qed.

Lemma main_loop_frames (inputs : list (list Event * Z)) (g : Game.t) :
  (Game.frame_clock g <= Game.frame_clock (main_loop inputs g)
   <= Game.frame_clock g + Z.of_nat (length inputs))%Z
  /\ (Game.done (main_loop inputs g) = false ->
      Game.frame_clock (main_loop inputs g)
      = (Game.frame_clock g + Z.of_nat (length inputs))%Z).
Proof.
  revert g. induction inputs as [|[events draw] rest IH]; intros g.
  - simpl. split; [lia | intros _; lia].
  - cbn [Game.main_loop length]. destruct (Game.done g) eqn:Hd.
    + split; [lia | congruence].
    + destruct (IH (tick events draw g)) as [Hb He].
      rewrite (frame_clock_every_tick _ _ _ events draw g) in Hb, He.
      split; [lia | intros H; rewrite (He H); lia].
Qed.

(** X4: a tick in which the game is paused once the events are handled
    leaves the world as it was: [update_world] returns its argument, so no
    pipe is made, moved or removed, the bird stays where it is, the score
    is kept, and no collision is looked for, so that [done] can only come
    from a quit event; the frame counter still goes up by one. *)
Theorem paused_tick_freezes_world
  (events : list Event) (draw : Z) (g : Game.t) :
  Game.paused (Game.handle_events events g) = true ->
  let g' := tick events draw g in
  update_world draw (Game.handle_events events g)
  = Game.handle_events events g
  /\ Game.pipes g' = Game.pipes g
  /\ Bird.x (Game.bird g') = Bird.x (Game.bird g)
  /\ Bird.y (Game.bird g') = Bird.y (Game.bird g)
  /\ Game.score g' = Game.score g
  /\ Game.paused g' = true
  /\ Game.done g' = Game.done g || existsb quits events
  /\ Game.frame_clock g' = (Game.frame_clock g + 1)%Z.
Proof.
  intros Hp. cbv zeta. unfold Game.tick.
  rewrite (update_world_paused _ _ _ draw _ Hp).
  unfold Game.render_world.
  cbn [Game.set_frame_clock Game.pipes Game.bird Game.score Game.paused
         Game.done Game.frame_clock].
  destruct (handle_events_keeps events g) as (Hx & Hy & Hps & Hs & Hf).
  rewrite Hx, Hy, Hps, Hs, Hf, Hp, handle_events_done. repeat split.
Qed.


(** X6: [done] is never reset: from a state in which it is true, each of
    [handle_events], [update_world] and [render_world] returns a state in
    which it is true, and the main loop runs no further frame. *)
Theorem done_is_never_reset (g : Game.t) :
  Game.done g = true ->
  (forall events, Game.done (Game.handle_events events g) = true)
  /\ (forall draw, Game.done (update_world draw g) = true)
  /\ Game.done (Game.render_world g) = true
  /\ (forall events draw, Game.done (tick events draw g) = true)
  /\ (forall inputs, main_loop inputs g = g).
Proof.
  intros Hd. repeat split.
  - intros events. rewrite handle_events_done, Hd. reflexivity.
  - intros draw. rewrite update_world_done, Hd. reflexivity.
  - exact Hd.
  - intros events draw. apply tick_done. left. exact Hd.
  - intros inputs. apply main_loop_done. exact Hd.
Qed.

(** X7: [update_world] sets [done] in a game that is not paused exactly
    when a pipe's mask meets the bird's or the bird's top edge is at or
    above the top of the window or at or below [WIN_HEIGHT - Bird.HEIGHT];
    in particular a bird at y <= 0 or y >= 480 ends the game whatever the
    pipes and the masks are. *)
Theorem update_world_ends_the_game (draw : Z) (g : Game.t) :
  Game.paused g = false ->
  Game.done (update_world draw g)
  = Game.done g
    || existsb (fun p => collide_mask p (Game.bird g))
         (Game.pipes (Game.spawn draw g))
    || Qle_bool (Bird.y (Game.bird g)) 0
    || Qle_bool (inject_Z (WIN_HEIGHT - Bird.HEIGHT)) (Bird.y (Game.bird g))
  /\ (Bird.y (Game.bird g) <= 0
      \/ inject_Z (WIN_HEIGHT - Bird.HEIGHT) <= Bird.y (Game.bird g) ->
      Game.done (update_world draw g) = true).
Proof.
  intros Hp.
  assert (Hd : Game.done (update_world draw g)
               = Game.done g
                 || existsb (fun p => collide_mask p (Game.bird g))
                      (Game.pipes (Game.spawn draw g))
                 || Qle_bool (Bird.y (Game.bird g)) 0
                 || Qle_bool (inject_Z (WIN_HEIGHT - Bird.HEIGHT))
                      (Bird.y (Game.bird g))).
  { rewrite update_world_done, Hp. cbn [negb andb]. unfold Game.collision.
    destruct (spawn_frame draw g) as (-> & _).
    rewrite !orb_assoc. reflexivity. }
  split; [exact Hd|].
  intros [Hy | Hy]; rewrite Hd; apply Qle_bool_iff in Hy; rewrite Hy.
  - rewrite orb_true_r. reflexivity.
  - apply orb_true_r.
Qed.

(** X8: the main loop over the frames [a ++ b] is the main loop over [a]
    followed by the main loop over [b]; it adds at most one to the frame
    counter per frame, and if the game is not over at the end, every frame
    was played: the frame counter has advanced by their number. *)
Theorem main_loop_composes (a b : list (list Event * Z)) (g : Game.t) :
  main_loop (a ++ b) g = main_loop b (main_loop a g)
  /\ (Game.frame_clock g <= Game.frame_clock (main_loop a g)
      <= Game.frame_clock g + Z.of_nat (length a))%Z
  /\ (Game.done (main_loop a g) = false ->
      Game.frame_clock (main_loop a g)
      = (Game.frame_clock g + Z.of_nat (length a))%Z).
Proof.
  split; [apply main_loop_app | apply main_loop_frames].
Qed.

(** X9: a frame whose events hold a quit event is the last one: the main
    loop still runs [update_world] and [render_world] for it, and then
    stops, whatever frames were to follow. *)
Theorem quit_frame_is_the_last
  (events : list Event) (draw : Z) (rest : list (list Event * Z))
  (g : Game.t) :
  Game.done g = false ->
  existsb quits events = true ->
  main_loop ((events, draw) :: rest) g
  = Game.render_world (update_world draw (Game.handle_events events g))
  /\ Game.done (main_loop ((events, draw) :: rest) g) = true
  /\ Game.frame_clock (main_loop ((events, draw) :: rest) g)
     = (Game.frame_clock g + 1)%Z.
Proof.
  intros Hd Hq. cbn [Game.main_loop]. rewrite Hd.
  assert (Ht : Game.done (tick events draw g) = true)
    by (apply tick_done; right; exact Hq).
  rewrite (main_loop_done rest _ Ht). repeat split.
  - exact Ht.
  - apply (frame_clock_every_tick _ _ _ events draw g).
Qed.

End RunFacts.

(** X4 at the fresh game once the pause key has been released. *)
Lemma paused_tick_freezes_world_witness :
  Game.update_world cos_q pi_q no_contact 5 (Game.handle_events [] paused_state)
  = Game.handle_events [] paused_state.
Proof.
  refine (proj1 (paused_tick_freezes_world cos_q pi_q no_contact
                   [] 5 paused_state _)).
  reflexivity.
Defined.

(** X6 at [crash_state] with [done] set. *)
Lemma done_is_never_reset_witness :
  Game.done (Game.render_world (Game.set_done true crash_state)) = true.
Proof.
  refine (proj1 (proj2 (proj2 (done_is_never_reset cos_q pi_q no_contact
                                 (Game.set_done true crash_state) _)))).
  reflexivity.
Defined.

(** X7 at [crash_state], whose bird is at y = 482. *)
Lemma update_world_ends_the_game_witness :
  Game.done (Game.update_world cos_q pi_q no_contact 1 crash_state) = true.
Proof.
  refine (proj2 (update_world_ends_the_game cos_q pi_q no_contact
                   1 crash_state _) _).
  - reflexivity.
  - right. vm_compute. discriminate.
Defined.

(** X8 at a fresh game left alone for three frames. *)
Lemma main_loop_composes_witness :
  Game.frame_clock
    (Game.main_loop cos_q pi_q no_contact (idle_frames 3 5) Game.init)
  = 3%Z.
Proof.
  refine (proj2 (proj2 (main_loop_composes cos_q pi_q no_contact
                          (idle_frames 3 5) [] Game.init)) _).
  reflexivity.
Defined.

(** X9 at a fresh game whose window is closed in the first frame. *)
Lemma quit_frame_is_the_last_witness :
  Game.done
    (Game.main_loop cos_q pi_q no_contact
       (([ {| e_type := QUIT; e_key := K_a |} ], 5%Z) :: idle_frames 3 5)
       Game.init)
  = true.
Proof.
  refine (proj1 (proj2 (quit_frame_is_the_last cos_q pi_q no_contact
                          [ {| e_type := QUIT; e_key := K_a |} ] 5
                          (idle_frames 3 5) Game.init _ _)));
    reflexivity.
Defined.

(** ** The bird's motion *)

Lemma frames_to_msec_FPS (delta : Z) :
  frames_to_msec delta FPS == (50 # 3) * inject_Z delta.
Proof. unfold frames_to_msec, FPS. field. Qed.

Lemma cos_clamped_bounds (a : Q) : -1 <= cos_clamped a /\ cos_clamped a <= 1.
Proof.
  unfold cos_clamped.
  destruct (Qle_bool (cos_q a) (-1)) eqn:E1.
  - split; [apply Qle_refl | discriminate].
  - destruct (Qle_bool 1 (cos_q a)) eqn:E2.
    + split; [discriminate | apply Qle_refl].
    + split; apply Qlt_le_weak; apply Qltb_lt; unfold Qltb;
        [rewrite E1 | rewrite E2]; reflexivity.
Qed.

(** X10: [Bird.update] never changes the bird's x.  With a timer that is
    not positive the bird sinks by [SINK_SPEED * frames_to_msec], 3 pixels
    per frame, and the timer is kept.  With a positive timer, and a cosine
    within [-1, 1], the bird does not go down and rises by at most
    [2 * CLIMB_SPEED * frames_to_msec], 10 pixels per frame, while the
    timer loses [frames_to_msec], 1000/60 ms per frame. *)
Theorem bird_update_motion
  (math_cos : Q -> Q) (math_pi : Q) (delta_frames : Z) (b : Bird.t) :
  (forall a, -1 <= math_cos a /\ math_cos a <= 1) ->
  (0 <= delta_frames)%Z ->
  let b' := Bird.update math_cos math_pi delta_frames b in
  Bird.x b' = Bird.x b
  /\ (Bird.msec_to_climb b <= 0 ->
      Bird.y b' == Bird.y b + 3 * inject_Z delta_frames
      /\ Bird.msec_to_climb b' = Bird.msec_to_climb b)
  /\ (0 < Bird.msec_to_climb b ->
      Bird.y b - 10 * inject_Z delta_frames <= Bird.y b'
      /\ Bird.y b' <= Bird.y b
      /\ Bird.msec_to_climb b'
         == Bird.msec_to_climb b - (50 # 3) * inject_Z delta_frames).
Proof.
  intros Hcos Hdelta. cbv zeta.
  assert (Hd : 0 <= inject_Z delta_frames).
  { change 0 with (inject_Z 0). rewrite <- Zle_Qle. exact Hdelta. }
  unfold Bird.update. split; [|split].
  - destruct (Qltb 0 (Bird.msec_to_climb b)); reflexivity.
  - intros Hle. apply Qltb_ge in Hle. rewrite Hle.
    cbn [Bird.y Bird.msec_to_climb]. split; [|reflexivity].
    rewrite frames_to_msec_FPS. unfold Bird.SINK_SPEED. field.
  - intros Hpos. apply Qltb_lt in Hpos. rewrite Hpos.
    cbn [Bird.y Bird.msec_to_climb]. rewrite frames_to_msec_FPS.
    set (c := math_cos _).
    destruct (Hcos ((1 - Bird.msec_to_climb b / Bird.CLIMB_DURATION)
                    * math_pi)) as [Hlo Hhi].
    fold c in Hlo, Hhi. unfold Bird.CLIMB_SPEED.
    set (d := inject_Z delta_frames) in *.
    repeat split; try reflexivity; nra.
Qed.

(** X10 with the clamped cosine, at the bird of a fresh game. *)
Lemma bird_update_motion_witness :
  Bird.x (Bird.update cos_clamped pi_q 1 (Game.bird Game.init))
  = Bird.x (Game.bird Game.init).
Proof.
  refine (proj1 (bird_update_motion cos_clamped pi_q 1 (Game.bird Game.init)
                   cos_clamped_bounds _)).
  discriminate.
Defined.

Section ClimbFacts.
Variable math_cos : Q -> Q.
Variable math_pi : Q.

Local Abbreviation updates n :=
  (Nat.iter n (Bird.update math_cos math_pi 1)).

Lemma climbing_timer (b : Bird.t) (n : nat) :
  (n <= 20)%nat ->
  Bird.msec_to_climb
    (updates n (Bird.set_msec_to_climb Bird.CLIMB_DURATION b))
  == Bird.CLIMB_DURATION - (50 # 3) * inject_Z (Z.of_nat n).
Proof.
  induction n as [|n IH]; intros Hn.
  - cbn. reflexivity.
  - assert (IHn := IH ltac:(lia)). clear IH.
    rewrite Nat.iter_succ.
    set (bn := Nat.iter n _ _) in *.
    assert (Hq : inject_Z (Z.of_nat n) <= 19).
    { change 19 with (inject_Z 19). rewrite <- Zle_Qle. lia. }
    assert (Hpos : 0 < Bird.msec_to_climb bn).
    { rewrite IHn. unfold Bird.CLIMB_DURATION. lra. }
    apply Qltb_lt in Hpos. unfold Bird.update. rewrite Hpos.
    cbn [Bird.msec_to_climb]. rewrite IHn, frame_msec.
    rewrite Nat2Z.inj_succ, <- Z.add_1_r, inject_Z_plus. ring.
Qed.

Lemma climb_over_timer (b : Bird.t) (n : nat) :
  (20 <= n)%nat ->
  Bird.msec_to_climb
    (updates n (Bird.set_msec_to_climb Bird.CLIMB_DURATION b))
  == - (1 # 30).
Proof.
  induction 1 as [|n Hn IH].
  - rewrite climbing_timer by lia. reflexivity.
  - rewrite Nat.iter_succ.
    set (bn := Nat.iter n _ _) in *.
    assert (Hle : Bird.msec_to_climb bn <= 0) by (rewrite IH; discriminate).
    apply Qltb_ge in Hle. unfold Bird.update. rewrite Hle.
    cbn [Bird.msec_to_climb]. exact IH.
Qed.

(** X11: a climb lasts 20 frames: after a climb input has set the timer
    to [CLIMB_DURATION], the [n]-th following [update()] finds the timer at
    [CLIMB_DURATION - n * 1000/60]; it is positive before each of the first
    20 updates, which therefore all take the climbing branch, and it stays
    at -1/30 from the 20th update on, so that every later update takes the
    sinking branch until the next climb input. *)
Theorem climb_lasts_twenty_frames (b : Bird.t) (n : nat) :
  let bn := updates n (Bird.set_msec_to_climb Bird.CLIMB_DURATION b) in
  ((n <= 20)%nat ->
   Bird.msec_to_climb bn
   == Bird.CLIMB_DURATION - (50 # 3) * inject_Z (Z.of_nat n))
  /\ ((n < 20)%nat -> Qltb 0 (Bird.msec_to_climb bn) = true)
  /\ ((20 <= n)%nat ->
      Bird.msec_to_climb bn == - (1 # 30)
      /\ Qltb 0 (Bird.msec_to_climb bn) = false).
Proof.
  cbv zeta. split; [apply climbing_timer|]. split.
  - intros Hn. apply Qltb_lt. rewrite climbing_timer by lia.
    assert (Hq : inject_Z (Z.of_nat n) <= 19).
    { change 19 with (inject_Z 19). rewrite <- Zle_Qle. lia. }
    unfold Bird.CLIMB_DURATION. lra.
  - intros Hn. split; [apply climb_over_timer; exact Hn|].
    apply Qltb_ge. rewrite climb_over_timer by exact Hn. discriminate.
Qed.

End ClimbFacts.

(** X11 at the 20th update after a climb input. *)
Lemma climb_lasts_twenty_frames_witness :
  Qltb 0
    (Bird.msec_to_climb
       (Nat.iter 20 (Bird.update cos_q pi_q 1)
          (Bird.set_msec_to_climb Bird.CLIMB_DURATION (Game.bird Game.init))))
  = false.
Proof.
  refine (proj2 (proj2 (proj2 (climb_lasts_twenty_frames cos_q pi_q
                                 (Game.bird Game.init) 20)) _)).
  apply le_n.
Defined.

(** ** The life of a pipe *)

Lemma pipe_update_x (p : PipePair.t) :
  PipePair.x (PipePair.update 1 p) == PipePair.x p - 3.
Proof.
  unfold PipePair.update. cbn [PipePair.x]. rewrite pipe_step. reflexivity.
Qed.

Lemma pipe_updates_x (p : PipePair.t) (k : nat) :
  PipePair.x (Nat.iter k (PipePair.update 1) p)
  == PipePair.x p - 3 * inject_Z (Z.of_nat k).
Proof.
  induction k as [|k IH].
  - cbn. ring.
  - rewrite Nat.iter_succ, pipe_update_x, IH.
    rewrite Nat2Z.inj_succ, <- Z.add_1_r, inject_Z_plus. ring.
Qed.

Lemma pipe_updates_keep (p : PipePair.t) (k : nat) :
  PipePair.score_counted (Nat.iter k (PipePair.update 1) p)
  = PipePair.score_counted p
  /\ PipePair.top_pieces (Nat.iter k (PipePair.update 1) p)
     = PipePair.top_pieces p
  /\ PipePair.bottom_pieces (Nat.iter k (PipePair.update 1) p)
     = PipePair.bottom_pieces p.
Proof.
  induction k as [|k IH]; [repeat split|].
  rewrite Nat.iter_succ. exact IH.
Qed.

(** X12: a new pipe that has been moved [k] times is at x = 567 - 3k;
    it is visible exactly while k <= 215, and its right edge is left of a
    bird at x = 50, which is when the scoring loop counts it, exactly from
    k = 200 on: a pipe is counted 16 moves before it stops being visible.
    Moving a pipe changes neither its flag nor its piece counts. *)
Theorem pipe_lifetime (draw : Z) (k : nat) :
  let p := Nat.iter k (PipePair.update 1) (PipePair.init draw) in
  PipePair.x p == 567 - 3 * inject_Z (Z.of_nat k)
  /\ (PipePair.visible p = true <-> (k <= 215)%nat)
  /\ (scores_now 50 p = true <-> (200 <= k)%nat)
  /\ PipePair.score_counted p = false
  /\ PipePair.top_pieces p = PipePair.top_pieces (PipePair.init draw)
  /\ PipePair.bottom_pieces p = PipePair.bottom_pieces (PipePair.init draw).
Proof.
  cbv zeta.
  destruct (pipe_updates_keep (PipePair.init draw) k) as (Hc & Ht & Hb).
  assert (Hx : PipePair.x (Nat.iter k (PipePair.update 1) (PipePair.init draw))
               == inject_Z (567 - 3 * Z.of_nat k)).
  { rewrite pipe_updates_x. unfold Zminus.
    rewrite inject_Z_plus, inject_Z_opp, inject_Z_mult. reflexivity. }
  split; [|split; [|split; [|split; [exact Hc | split; assumption]]]].
  - rewrite pipe_updates_x. reflexivity.
  - unfold PipePair.visible. rewrite andb_true_iff, !Qltb_lt, Hx.
    rewrite <- !Zlt_Qlt. unfold PipePair.WIDTH, WIN_WIDTH, TILE. lia.
  - unfold scores_now. rewrite Hc. cbn [negb]. rewrite andb_true_r.
    rewrite Qltb_lt, Hx, <- inject_Z_plus.
    change 50 with (inject_Z 50). rewrite <- Zlt_Qlt.
    unfold PipePair.WIDTH. lia.
Qed.

(** ** The pieces of a pipe *)

Lemma range_length (a b : Z) : length (range a b) = Z.to_nat (b - a).
Proof. unfold range. rewrite length_map, length_seq. reflexivity. Qed.

Lemma range_snoc (a b : Z) :
  (a <= b)%Z -> range a (b + 1) = range a b ++ [b].
Proof.
  intros Hab. unfold range.
  replace (Z.to_nat (b + 1 - a)) with (S (Z.to_nat (b - a))) by lia.
  rewrite seq_S, map_app. cbn [map]. do 2 f_equal. lia.
Qed.

Lemma range_In (a b i : Z) : In i (range a b) <-> (a <= i < b)%Z.
Proof.
  unfold range. rewrite in_map_iff. split.
  - intros [n [<- Hn]]. apply in_seq in Hn. lia.
  - intros Hi. exists (Z.to_nat (i - a)). split; [lia|].
    apply in_seq. lia.
Qed.

(** X13: for a draw in the range of [randint(1, total_pipe_body_pieces)],
    the constructor leaves 1 to 10 pieces in the top pipe and 2 to 11 in
    the bottom pipe, end pieces included; the pieces it draws for each pipe,
    body pieces and end piece, are exactly [top_pieces] pieces stacked from
    the top of the window and [bottom_pieces] pieces stacked from its
    bottom; each of them lies inside the window, the top ones above
    [top_height_px] and the bottom ones below
    [WIN_HEIGHT - bottom_height_px], so that nothing is drawn in the gap. *)
Theorem pipe_pieces_drawn (draw : Z) :
  (1 <= draw <= PipePair.total_pipe_body_pieces)%Z ->
  let body := PipePair.init_body draw in
  let p := PipePair.init draw in
  ((1 <= PipePair.top_pieces p <= 10)%Z
   /\ (2 <= PipePair.bottom_pieces p <= 11)%Z)
  /\ top_body_piece_ys body ++ [PipePair.top_end_piece_y body]
     = map (fun i => (i * PipePair.PIECE_HEIGHT)%Z)
         (range 0 (PipePair.top_pieces p))
  /\ bottom_body_piece_ys body ++ [PipePair.bottom_end_piece_y body]
     = map (fun i => (WIN_HEIGHT - i * PipePair.PIECE_HEIGHT)%Z)
         (range 1 (PipePair.bottom_pieces p + 1))
  /\ Forall (fun y => (0 <= y)%Z
                      /\ (y + PipePair.PIECE_HEIGHT
                          <= PipePair.top_height_px p)%Z)
       (top_body_piece_ys body ++ [PipePair.top_end_piece_y body])
  /\ Forall (fun y => (WIN_HEIGHT - PipePair.bottom_height_px p <= y)%Z
                      /\ (y + PipePair.PIECE_HEIGHT <= WIN_HEIGHT)%Z)
       (bottom_body_piece_ys body ++ [PipePair.bottom_end_piece_y body]).
Proof.
  rewrite total_pipe_body_pieces_value. intros Hdraw. cbv zeta.
  assert (Htop : top_body_piece_ys (PipePair.init_body draw)
                 ++ [PipePair.top_end_piece_y (PipePair.init_body draw)]
                 = map (fun i => (i * PipePair.PIECE_HEIGHT)%Z)
                     (range 0 (PipePair.top_pieces (PipePair.init draw)))).
  { unfold top_body_piece_ys, PipePair.top_end_piece_y,
      PipePair.top_height_px, PipePair.init, PipePair.compensate.
    cbn [PipePair.top_pieces PipePair.init_body].
    rewrite total_pipe_body_pieces_value.
    rewrite range_snoc by lia. rewrite map_app. reflexivity. }
  assert (Hbot : bottom_body_piece_ys (PipePair.init_body draw)
                 ++ [PipePair.bottom_end_piece_y (PipePair.init_body draw)]
                 = map (fun i => (WIN_HEIGHT - i * PipePair.PIECE_HEIGHT)%Z)
                     (range 1
                        (PipePair.bottom_pieces (PipePair.init draw) + 1))).
  { unfold bottom_body_piece_ys, PipePair.bottom_end_piece_y,
      PipePair.bottom_height_px, PipePair.init, PipePair.compensate.
    cbn [PipePair.bottom_pieces PipePair.init_body].
    rewrite (range_snoc 1 (draw + 1)) by lia. rewrite map_app. cbn [map].
    do 2 f_equal. lia. }
  split; [|split; [exact Htop | split; [exact Hbot | split]]].
  - unfold PipePair.init, PipePair.compensate.
    cbn [PipePair.top_pieces PipePair.bottom_pieces PipePair.init_body].
    rewrite total_pipe_body_pieces_value. lia.
  - rewrite Htop. apply Forall_forall. intros y Hy.
    apply in_map_iff in Hy. destruct Hy as [i [<- Hi]].
    apply range_In in Hi. unfold PipePair.top_height_px.
    unfold PipePair.PIECE_HEIGHT. lia.
  - rewrite Hbot. apply Forall_forall. intros y Hy.
    apply in_map_iff in Hy. destruct Hy as [i [<- Hi]].
    apply range_In in Hi. unfold PipePair.bottom_height_px.
    unfold PipePair.PIECE_HEIGHT, WIN_HEIGHT. lia.
Qed.

(** X13 at the draw 10, which leaves the top pipe its end piece alone. *)
Lemma pipe_pieces_drawn_witness :
  (1 <= PipePair.top_pieces (PipePair.init 10) <= 10)%Z
  /\ (2 <= PipePair.bottom_pieces (PipePair.init 10) <= 11)%Z.
Proof.
  refine (proj1 (pipe_pieces_drawn 10 _)).
  split; discriminate.
Defined.

(** ** Invariants of a run *)






Section RunInvariants.
Variable math_cos : Q -> Q.
Variable math_pi : Q.
Variable collide_mask : PipePair.t -> Bird.t -> bool.

Local Abbreviation update_world :=
  (Game.update_world math_cos math_pi collide_mask).
Local Abbreviation reachable :=
  (game_reachable math_cos math_pi collide_mask).





Lemma main_loop_reachable (inputs : list (list Event * Z)) (g : Game.t) :
  reachable g ->
  reachable (Game.main_loop math_cos math_pi collide_mask inputs g).
Proof.
  revert g. induction inputs as [|[events draw] rest IH]; intros g Hg;
    [exact Hg|].
  simpl. destruct (Game.done g); [exact Hg|].
  apply IH. unfold Game.tick.
  apply game_render, game_update, game_events. exact Hg.
Qed.

Lemma handle_events_bird_reachable (events : list Event) (g : Game.t) :
  Game.bird_reachable math_cos math_pi (Game.bird g) ->
  Game.bird_reachable math_cos math_pi
    (Game.bird (Game.handle_events events g)).
Proof.
  revert g. induction events as [|e rest IH]; intros g Hb; simpl;
    [exact Hb|].
  destruct (quits e); [exact Hb|].
  destruct (toggles_pause e); [apply IH; exact Hb|].
  destruct (climbs e); apply IH; [|exact Hb].
  apply Game.reach_climb. exact Hb.
Qed.

Lemma reachable_bird_and_counters (g : Game.t) :
  reachable g ->
  Bird.x (Game.bird g) = 50
  /\ (0 <= Game.score g)%Z
  /\ (0 <= Game.frame_clock g)%Z
  /\ Game.bird_reachable math_cos math_pi (Game.bird g).
Proof.
  induction 1 as [| events g _ IH | draw g _ IH | g _ IH].
  - repeat split; try discriminate. apply Game.reach_init.
  - destruct IH as (Hx & Hs & Hf & Hb).
    destruct (handle_events_keeps events g) as (-> & _ & _ & -> & ->).
    repeat split; try assumption.
    apply handle_events_bird_reachable. exact Hb.
  - destruct IH as (Hx & Hs & Hf & Hb).
    destruct (Game.paused g) eqn:Hp.
    + rewrite (update_world_paused _ _ _ draw g Hp). repeat split; assumption.
    + rewrite (update_world_running _ _ _ draw g Hp).
      cbn [Game.bird Game.score Game.frame_clock].
      rewrite bird_update_x.
      pose proof (newly_nonneg (Bird.x (Game.bird g)) (moved_pipes draw g)).
      repeat split; try assumption; try lia.
      apply Game.reach_update. exact Hb.
  - destruct IH as (Hx & Hs & Hf & Hb). unfold Game.render_world.
    cbn [Game.set_frame_clock Game.bird Game.score Game.frame_clock].
    repeat split; try assumption. lia.
Qed.




(** X15: in every state of a game the bird's x is 50, the score and the
    frame counter are not negative, and the bird is in one of the states
    that its constructor, its [update()] and the climb input produce; and
    the state the main loop ends in, whatever the frames, is such a
    state. *)
Theorem reachable_bird_and_score (g : Game.t) :
  reachable g ->
  (Bird.x (Game.bird g) = 50
   /\ (0 <= Game.score g)%Z
   /\ (0 <= Game.frame_clock g)%Z
   /\ Game.bird_reachable math_cos math_pi (Game.bird g))
  /\ forall inputs,
       reachable (Game.main_loop math_cos math_pi collide_mask inputs g).
Proof.
  intros Hr. split; [apply reachable_bird_and_counters; exact Hr|].
  intros inputs. apply main_loop_reachable. exact Hr.
Qed.


End RunInvariants.


(** X15 at the fresh game after one frame. *)
Lemma reachable_bird_and_score_witness :
  Bird.x (Game.bird (Game.tick cos_q pi_q no_contact [] 5 Game.init)) = 50.
Proof.
  refine (proj1 (proj1 (reachable_bird_and_score cos_q pi_q no_contact
                          (Game.tick cos_q pi_q no_contact [] 5 Game.init)
                          _))).
  apply game_render, game_update, game_events, game_fresh.
Defined.


(** ** A game left alone *)

Section IdleGame.
Variable math_cos : Q -> Q.
Variable math_pi : Q.
Variable collide_mask : PipePair.t -> Bird.t -> bool.
Hypothesis cos_bounds : forall a, -1 <= math_cos a /\ math_cos a <= 1.

Local Abbreviation tick := (Game.tick math_cos math_pi collide_mask).
Local Abbreviation main_loop :=
  (Game.main_loop math_cos math_pi collide_mask).

Lemma idle_tick_sinking (draw : Z) (g : Game.t) :
  Game.paused g = false ->
  Bird.msec_to_climb (Game.bird g) <= 0 ->
  Game.paused (tick [] draw g) = false
  /\ Bird.msec_to_climb (Game.bird (tick [] draw g)) <= 0
  /\ Bird.y (Game.bird (tick [] draw g)) == Bird.y (Game.bird g) + 3
  /\ (inject_Z (WIN_HEIGHT - Bird.HEIGHT) <= Bird.y (Game.bird g) ->
      Game.done (tick [] draw g) = true).
Proof.
  intros Hp Hm. unfold Game.tick. cbn [Game.handle_events].
  unfold Game.render_world.
  cbn [Game.set_frame_clock Game.paused Game.bird Game.done].
  rewrite update_world_done.
  rewrite (update_world_running _ _ _ draw g Hp).
  cbn [Game.paused Game.bird]. rewrite Hp.
  unfold Bird.update. apply Qltb_ge in Hm. rewrite Hm.
  cbn [Bird.y Bird.msec_to_climb]. apply Qltb_ge in Hm.
  repeat split; try assumption.
  - rewrite frame_msec. unfold Bird.SINK_SPEED. field.
  - intros Hy. unfold Game.collision.
    destruct (spawn_frame draw g) as (-> & _).
    apply Qle_bool_iff in Hy. rewrite Hy. cbn [negb andb].
    rewrite !orb_true_r. reflexivity.
Qed.

Lemma first_idle_tick (draw : Z) :
  Game.paused (tick [] draw Game.init) = false
  /\ Bird.msec_to_climb (Game.bird (tick [] draw Game.init)) <= 0
  /\ 230 <= Bird.y (Game.bird (tick [] draw Game.init)).
Proof.
  unfold Game.tick. cbn [Game.handle_events]. unfold Game.render_world.
  cbn [Game.set_frame_clock Game.paused Game.bird].
  rewrite (update_world_running _ _ _ draw Game.init eq_refl).
  cbn [Game.paused Game.bird]. split; [reflexivity|].
  change (Game.bird Game.init) with (Bird.init 50 240 2).
  unfold Bird.update. cbn [Bird.init Bird.msec_to_climb Bird.y].
  change (Qltb 0 2) with true. cbv iota.
  cbn [Bird.y Bird.msec_to_climb].
  split; [rewrite frame_msec; discriminate|].
  set (c := math_cos _).
  destruct (cos_bounds ((1 - 2 / Bird.CLIMB_DURATION) * math_pi))
    as [Hlo Hhi].
  fold c in Hlo, Hhi. rewrite frame_msec.
  change (inject_Z 240) with 240. unfold Bird.CLIMB_SPEED. lra.
Qed.

Lemma sinking_game_ends (inputs : list (list Event * Z)) (g : Game.t) :
  Forall (fun frame => fst frame = []) inputs ->
  inputs <> [] ->
  Game.paused g = false ->
  Bird.msec_to_climb (Game.bird g) <= 0 ->
  483 - 3 * inject_Z (Z.of_nat (length inputs)) <= Bird.y (Game.bird g) ->
  Game.done (main_loop inputs g) = true.
Proof.
  revert g. induction inputs as [|[events draw] rest IH];
    intros g Hidle Hne Hp Hm Hy; [congruence|].
  inversion Hidle as [|? ? He Hrest]; subst. cbn [fst] in He. subst events.
  cbn [Game.main_loop]. destruct (Game.done g) eqn:Hd; [exact Hd|].
  destruct (idle_tick_sinking draw g Hp Hm) as (Hp' & Hm' & Hy' & Hend).
  destruct (Qlt_le_dec (Bird.y (Game.bird g))
              (inject_Z (WIN_HEIGHT - Bird.HEIGHT))) as [Hlow | Hhigh].
  - change (inject_Z (WIN_HEIGHT - Bird.HEIGHT)) with 480 in Hlow.
    cbn [length] in Hy. rewrite Nat2Z.inj_succ, <- Z.add_1_r in Hy.
    rewrite inject_Z_plus in Hy. change (inject_Z 1) with 1 in Hy.
    apply IH; try assumption.
    + intros ->.
      change (inject_Z (Z.of_nat (@length (list Event * Z) []))) with 0 in Hy.
      lra.
    + rewrite Hy'. lra.
  - rewrite (main_loop_done _ _ _ rest _ (Hend Hhigh)). exact (Hend Hhigh).
Qed.

(** X17: a game nobody plays ends: with a cosine within [-1, 1], whatever
    the mask collision test answers and whatever pipes are drawn, the main
    loop run from a fresh game over 86 or more frames without any event
    ends with [done] set (the bird has sunk to the bottom of the window, if
    it has not met a pipe before), and it has played at most 86 frames. *)
Theorem unplayed_game_ends (inputs : list (list Event * Z)) :
  Forall (fun frame => fst frame = []) inputs ->
  (86 <= length inputs)%nat ->
  Game.done (main_loop inputs Game.init) = true
  /\ (Game.frame_clock (main_loop inputs Game.init) <= 86)%Z.
Proof.
  intros Hidle Hlen.
  assert (Hfirst : forall frames,
             Forall (fun frame => fst frame = []) frames ->
             (86 <= length frames)%nat ->
             Game.done (main_loop frames Game.init) = true).
  { intros [|[events draw] rest] Hi Hl; [cbn in Hl; lia|].
    inversion Hi as [|? ? He Hrest]; subst. cbn [fst] in He. subst events.
    cbn [Game.main_loop Game.done Game.init]. cbn [length] in Hl.
    destruct (first_idle_tick draw) as (Hp & Hm & Hy).
    apply sinking_game_ends; try assumption.
    - intros ->. cbn in Hl. lia.
    - assert (Hq : 85 <= inject_Z (Z.of_nat (length rest))).
      { change 85 with (inject_Z 85). rewrite <- Zle_Qle. lia. }
      lra. }
  split; [apply Hfirst; assumption|].
  assert (Hf : Forall (fun frame : list Event * Z => fst frame = [])
                 (firstn 86 inputs)).
  { rewrite <- (firstn_skipn 86 inputs) in Hidle.
    apply Forall_app in Hidle. apply Hidle. }
  rewrite <- (firstn_skipn 86 inputs), (main_loop_app _ _ _).
  assert (Hl86 : length (firstn 86 inputs) = 86%nat)
    by (apply firstn_length_le; exact Hlen).
  rewrite (main_loop_done _ _ _ (skipn 86 inputs)).
  - destruct (main_loop_frames math_cos math_pi collide_mask
                (firstn 86 inputs) Game.init) as [Hb _].
    rewrite Hl86 in Hb. cbn [Game.frame_clock Game.init] in Hb. lia.
  - apply Hfirst; [exact Hf | lia].
Qed.

End IdleGame.

Lemma idle_frames_idle (n : nat) (draw : Z) :
  Forall (fun frame : list Event * Z => fst frame = []) (idle_frames n draw).
Proof.
  apply Forall_forall. intros frame Hin.
  apply repeat_spec in Hin. subst frame. reflexivity.
Qed.

(** X17 with the clamped cosine and masks that never meet, over 90 idle
    frames. *)
Lemma unplayed_game_ends_witness :
  Game.done
    (Game.main_loop cos_clamped pi_q no_contact (idle_frames 90 5) Game.init)
  = true.
Proof.
  refine (proj1 (unplayed_game_ends cos_clamped pi_q no_contact
                   cos_clamped_bounds (idle_frames 90 5)
                   (idle_frames_idle 90 5) _)).
  cbn. repeat constructor.
Defined.

(** ** The conversions of converter.py *)

Lemma inject_Z_pos (n : Z) : (0 < n)%Z -> 0 < inject_Z n.
Proof. intros H. change 0 with (inject_Z 0). rewrite <- Zlt_Qlt. exact H. Qed.

(** X18: at a positive frame rate, [frames_to_msec] and [msec_to_frames]
    send 0 to 0 and are monotone: more frames never give fewer
    milliseconds, and more milliseconds never give fewer frames. *)
Theorem conversions_monotone (fps a b : Z) :
  (0 < fps)%Z ->
  (a <= b)%Z ->
  frames_to_msec 0 fps == 0
  /\ msec_to_frames 0 fps == 0
  /\ frames_to_msec a fps <= frames_to_msec b fps
  /\ msec_to_frames a fps <= msec_to_frames b fps.
Proof.
  intros Hfps Hab. pose proof (inject_Z_pos fps Hfps) as Hf.
  assert (Hq : inject_Z a <= inject_Z b) by (rewrite <- Zle_Qle; exact Hab).
  unfold frames_to_msec, msec_to_frames. split; [|split; [|split]].
  - unfold Qdiv. change (inject_Z 0) with 0. ring.
  - unfold Qdiv. change (inject_Z 0) with 0. ring.
  - apply Qmult_le_compat_r.
    + apply Qmult_le_l; [reflexivity | exact Hq].
    + apply Qlt_le_weak. apply Qinv_lt_0_compat. exact Hf.
  - apply Qmult_le_compat_r; [|discriminate].
    apply Qmult_le_l; assumption.
Qed.

(** X18 at the game's frame rate. *)
Lemma conversions_monotone_witness : frames_to_msec 0 FPS == 0.
Proof.
  refine (proj1 (conversions_monotone FPS 1 2 _ _)).
  - reflexivity.
  - discriminate.
Defined.
